(** * Window manager state engine

    A shallow embedding of the window manager provider
    (openWindow, closeWindow, minimizeWindow, maximizeWindow, restoreWindow,
    focusWindow, updateWindowPosition, updateWindowSize) and of the pair of
    React states it owns: [windows] (seeded with the empty array) and
    [topZIndex] (seeded with 100).

    Modelling choices.
    - A state updater [setX (prev => e)] is the pure function [prev => e];
      an operation is the state transformer obtained by running its updaters
      once on the current state.  [setTopZIndex (currentZ => ... newZ)] with
      the nested [setWindows] becomes: compute [newZ], rewrite [windows],
      store [newZ].
    - JavaScript numbers are modelled as [Z].  The counter starts at 100 and
      moves by [+ 1], so it stays far inside the range where doubles are
      exact integers.
    - The telemetry calls (Sentry.logger, Sentry.metrics) read the state and
      never write it; they are left out of the state transformer. *)

From Stdlib Require Import List String ZArith Bool Lia.
Import ListNotations.

Local Open Scope Z_scope.
Local Open Scope string_scope.

(** ** Data model *)

(** Modelled from the spec: the declaration of [WindowState] (./types) is
    not among the sources; its fields are those the spec lists for a Window
    and those the provider reads and writes. *)
Record WindowState : Type := mkWindowState
  { id : string
  ; title : string
  ; x : Z
  ; y : Z
  ; width : Z
  ; height : Z
  ; zIndex : Z
  ; isFocused : bool
  ; isMinimized : bool
  ; isMaximized : bool
  }.

(** [Omit<WindowState, 'zIndex' | 'isFocused'>], the argument of openWindow. *)
Module Init.
Record t : Type := mk
  { id : string
  ; title : string
  ; x : Z
  ; y : Z
  ; width : Z
  ; height : Z
  ; isMinimized : bool
  ; isMaximized : bool
  }.
End Init.

(** The two [useState] cells of the provider. *)
Record State : Type := mkState
  { windows : list WindowState
  ; topZIndex : Z
  }.

Definition initial : State := {| windows := []; topZIndex := 100 |}.

(** ** Object spreads [{ ...w, field: v }] *)

Definition set_isFocused (b : bool) (w : WindowState) : WindowState :=
  mkWindowState (id w) (title w) (x w) (y w) (width w) (height w)
                (zIndex w) b (isMinimized w) (isMaximized w).

Definition set_isMinimized (b : bool) (w : WindowState) : WindowState :=
  mkWindowState (id w) (title w) (x w) (y w) (width w) (height w)
                (zIndex w) (isFocused w) b (isMaximized w).

Definition set_isMaximized (b : bool) (w : WindowState) : WindowState :=
  mkWindowState (id w) (title w) (x w) (y w) (width w) (height w)
                (zIndex w) (isFocused w) (isMinimized w) b.

Definition set_zIndex (z : Z) (w : WindowState) : WindowState :=
  mkWindowState (id w) (title w) (x w) (y w) (width w) (height w)
                z (isFocused w) (isMinimized w) (isMaximized w).

Definition set_xy (nx ny : Z) (w : WindowState) : WindowState :=
  mkWindowState (id w) (title w) nx ny (width w) (height w)
                (zIndex w) (isFocused w) (isMinimized w) (isMaximized w).

Definition set_size (nw nh : Z) (w : WindowState) : WindowState :=
  mkWindowState (id w) (title w) (x w) (y w) nw nh
                (zIndex w) (isFocused w) (isMinimized w) (isMaximized w).

(** [{ ...window, zIndex: newZ, isFocused: true }] for a [window : Init.t]. *)
Definition of_init (window : Init.t) (newZ : Z) : WindowState :=
  mkWindowState (Init.id window) (Init.title window)
                (Init.x window) (Init.y window)
                (Init.width window) (Init.height window)
                newZ true
                (Init.isMinimized window) (Init.isMaximized window).

(** [{ ...w, isMinimized: false, isFocused: true, zIndex: newZ }] *)
Definition raise_restored (newZ : Z) (w : WindowState) : WindowState :=
  set_zIndex newZ (set_isFocused true (set_isMinimized false w)).

(** [{ ...w, isFocused: true, zIndex: newZ }] *)
Definition raise_focused (newZ : Z) (w : WindowState) : WindowState :=
  set_zIndex newZ (set_isFocused true w).

(** [prev.find(w => w.id === wid)] *)
Definition find_window (wid : string) (prev : list WindowState)
  : option WindowState :=
  find (fun w => id w =? wid) prev.

(** ** The eight operations *)

Definition openWindow (window : Init.t) (s : State) : State :=
  let currentZ := topZIndex s in
  let newZ := currentZ + 1 in
  let prev := windows s in
  {| windows :=
       match find_window (Init.id window) prev with
       | Some existing =>
           if isMinimized existing then
             map (fun w => if id w =? Init.id window
                           then raise_restored newZ w
                           else set_isFocused false w) prev
           else
             map (fun w => if id w =? Init.id window
                           then raise_focused newZ w
                           else set_isFocused false w) prev
       | None =>
           map (fun w => set_isFocused false w) prev ++ [of_init window newZ]
       end
   ; topZIndex := newZ |}.

Definition closeWindow (wid : string) (s : State) : State :=
  {| windows := filter (fun w => negb (id w =? wid)) (windows s)
   ; topZIndex := topZIndex s |}.

Definition minimizeWindow (wid : string) (s : State) : State :=
  {| windows :=
       map (fun w => if id w =? wid
                     then set_isFocused false (set_isMinimized true w)
                     else w) (windows s)
   ; topZIndex := topZIndex s |}.

Definition maximizeWindow (wid : string) (s : State) : State :=
  {| windows :=
       map (fun w => if id w =? wid
                     then set_isMaximized (negb (isMaximized w)) w
                     else w) (windows s)
   ; topZIndex := topZIndex s |}.

Definition restoreWindow (wid : string) (s : State) : State :=
  let currentZ := topZIndex s in
  let newZ := currentZ + 1 in
  {| windows :=
       map (fun w => if id w =? wid
                     then raise_restored newZ w
                     else set_isFocused false w) (windows s)
   ; topZIndex := newZ |}.

Definition focusWindow (wid : string) (s : State) : State :=
  let currentZ := topZIndex s in
  let newZ := currentZ + 1 in
  {| windows :=
       map (fun w => if id w =? wid
                     then raise_focused newZ w
                     else set_isFocused false w) (windows s)
   ; topZIndex := newZ |}.

Definition updateWindowPosition (wid : string) (nx ny : Z) (s : State)
  : State :=
  {| windows :=
       map (fun w => if id w =? wid then set_xy nx ny w else w) (windows s)
   ; topZIndex := topZIndex s |}.

Definition updateWindowSize (wid : string) (nw nh : Z) (s : State)
  : State :=
  {| windows :=
       map (fun w => if id w =? wid then set_size nw nh w else w) (windows s)
   ; topZIndex := topZIndex s |}.

(** ** Sequences of operations *)

Inductive Op : Type :=
| Open (window : Init.t)
| Close (wid : string)
| Minimize (wid : string)
| Maximize (wid : string)
| Restore (wid : string)
| Focus (wid : string)
| UpdateWindowPosition (wid : string) (nx ny : Z)
| UpdateWindowSize (wid : string) (nw nh : Z).

Definition step (s : State) (op : Op) : State :=
  match op with
  | Open window => openWindow window s
  | Close wid => closeWindow wid s
  | Minimize wid => minimizeWindow wid s
  | Maximize wid => maximizeWindow wid s
  | Restore wid => restoreWindow wid s
  | Focus wid => focusWindow wid s
  | UpdateWindowPosition wid nx ny => updateWindowPosition wid nx ny s
  | UpdateWindowSize wid nw nh => updateWindowSize wid nw nh s
  end.

(** The state after the calls [ops] have taken effect one after another
    from [s], each on the state the previous one left.  This is the call
    order when every call is made in an event of its own.  Calls made in one
    event are batched: the [setWindows] that openWindow, restoreWindow and
    focusWindow issue from inside their [setTopZIndex] updater is queued
    after the [setWindows] the other calls issue directly, so the calls of
    such a batch take effect in another order than they were made. *)
Definition run (ops : list Op) (s : State) : State := fold_left step ops s.

(** ** Observations used by the statements *)

Definition ids (ws : list WindowState) : list string := map id ws.

Definition focused_count (ws : list WindowState) : nat :=
  List.length (filter isFocused ws).

Definition unique_ids (s : State) : Prop := NoDup (ids (windows s)).

(** The invariant carried along every run: ids are a key and at most one
    window is focused. *)
Definition focus_exclusive (s : State) : Prop :=
  (focused_count (windows s) <= 1)%nat.

Definition wf (s : State) : Prop := unique_ids s /\ focus_exclusive s.

(** Scenario inputs. *)
Definition notes_a : Init.t :=
  Init.mk "a" "Notes" 0 0 400 300 false false.

Definition notes_b : Init.t :=
  Init.mk "b" "Files" 10 20 640 480 false false.

(** Every minimized window is unfocused. *)
Definition minimized_unfocused (s : State) : Prop :=
  forall w, In w (windows s) -> isMinimized w = true -> isFocused w = false.

(** The calls that cannot put focus on a minimized window: every call but
    a focusWindow whose target is minimized at the time of the call, and an
    openWindow of a fresh id whose argument carries [isMinimized: true]. *)
Definition keeps_minimized_unfocused (s : State) (op : Op) : bool :=
  match op with
  | Open window =>
      match find_window (Init.id window) (windows s) with
      | Some _ => true
      | None => negb (Init.isMinimized window)
      end
  | Focus wid =>
      match find_window wid (windows s) with
      | Some w => negb (isMinimized w)
      | None => true
      end
  | _ => true
  end.

Fixpoint all_keep_minimized_unfocused (ops : list Op) (s : State) : bool :=
  match ops with
  | [] => true
  | op :: ops' =>
      keeps_minimized_unfocused s op
      && all_keep_minimized_unfocused ops' (step s op)
  end.

(** The calls that keep minimized windows unfocused on whatever state
    they take effect: every call but focusWindow, and but an openWindow
    whose argument carries [isMinimized: true]. *)
Definition never_focuses_minimized (op : Op) : bool :=
  match op with
  | Open window => negb (Init.isMinimized window)
  | Focus _ => false
  | _ => true
  end.

(** The sweep of restoreWindow and focusWindow when no window is hit. *)
Definition defocus_all (s : State) : State :=
  {| windows := map (fun w => set_isFocused false w) (windows s)
   ; topZIndex := topZIndex s + 1 |}.

(** No window is stacked above the counter. *)
Definition z_bounded (s : State) : Prop :=
  Forall (fun w => zIndex w <= topZIndex s) (windows s).

(** ** Observations on runs *)

(** The calls that take a new stacking value: those that go through
    [setTopZIndex]. *)
Definition allocates (op : Op) : bool :=
  match op with
  | Open _ | Restore _ | Focus _ => true
  | _ => false
  end.

Definition allocations (ops : list Op) : nat :=
  List.length (filter allocates ops).

(** The ids passed to openWindow along a sequence of calls. *)
Fixpoint opened_ids (ops : list Op) : list string :=
  match ops with
  | [] => []
  | Open window :: ops' => Init.id window :: opened_ids ops'
  | _ :: ops' => opened_ids ops'
  end.

(** No two windows share a stacking value. *)
Definition z_distinct (s : State) : Prop := NoDup (map zIndex (windows s)).

(** A focused window carries the current value of the counter. *)
Definition focused_on_top (s : State) : Prop :=
  forall w, In w (windows s) -> isFocused w = true -> zIndex w = topZIndex s.

(** ** Telemetry emitted by the provider

    The Sentry calls made inside the [setWindows] updaters, in source order.
    An options object ([{ extra: {...} }], [{ tags: {...} }]) is the list of
    its fields in the order they are written.  Each updater is taken to run
    once per call, as in the state transformers above. *)

Inductive Value : Type :=
| VString (s : string)
| VNumber (n : Z).

Inductive Telemetry : Type :=
| LoggerInfo (message : string) (extra : list (string * Value))
| LoggerDebug (message : string) (extra : list (string * Value))
| MetricsIncrement (name : string) (value : Z) (tags : list (string * Value))
| MetricsGauge (name : string) (value : Z) (tags : list (string * Value)).

Definition openWindow_telemetry (window : Init.t) (prev : list WindowState)
  : list Telemetry :=
  match find_window (Init.id window) prev with
  | Some existing =>
      if isMinimized existing then
        [ LoggerInfo "Window restored from minimized state"
            [ ("window_id", VString (Init.id window))
            ; ("window_title", VString (Init.title window)) ]
        ; MetricsIncrement "window.restore" 1
            [ ("window_id", VString (Init.id window)) ] ]
      else
        [ LoggerDebug "Window focused (already open)"
            [ ("window_id", VString (Init.id window))
            ; ("window_title", VString (Init.title window)) ] ]
  | None =>
      let newWindowCount := Z.of_nat (List.length prev) + 1 in
      [ LoggerInfo "New window opened"
          [ ("window_id", VString (Init.id window))
          ; ("window_title", VString (Init.title window))
          ; ("width", VNumber (Init.width window))
          ; ("height", VNumber (Init.height window)) ]
      ; MetricsIncrement "window.open" 1
          [ ("window_id", VString (Init.id window)) ]
      ; MetricsGauge "window.active_count" newWindowCount [] ]
  end.

Definition closeWindow_telemetry (wid : string) (prev : list WindowState)
  : list Telemetry :=
  match find_window wid prev with
  | Some window =>
      let newWindowCount := Z.of_nat (List.length prev) - 1 in
      [ LoggerInfo "Window closed"
          [ ("window_id", VString wid)
          ; ("window_title", VString (title window)) ]
      ; MetricsIncrement "window.close" 1 [ ("window_id", VString wid) ]
      ; MetricsGauge "window.active_count" newWindowCount [] ]
  | None => []
  end.

Definition minimizeWindow_telemetry (wid : string) (prev : list WindowState)
  : list Telemetry :=
  match find_window wid prev with
  | Some window =>
      [ LoggerInfo "Window minimized"
          [ ("window_id", VString wid)
          ; ("window_title", VString (title window)) ]
      ; MetricsIncrement "window.minimize" 1 [ ("window_id", VString wid) ] ]
  | None => []
  end.

Definition maximizeWindow_telemetry (wid : string) (prev : list WindowState)
  : list Telemetry :=
  match find_window wid prev with
  | Some window =>
      let action := if isMaximized window then "restore" else "maximize" in
      [ LoggerInfo ("Window " ++ action ++ "d")
          [ ("window_id", VString wid)
          ; ("window_title", VString (title window)) ]
      ; MetricsIncrement ("window." ++ action) 1
          [ ("window_id", VString wid) ] ]
  | None => []
  end.

Definition updateWindowPosition_telemetry (wid : string) (nx ny : Z)
  (prev : list WindowState) : list Telemetry :=
  match find_window wid prev with
  | Some _ =>
      [ LoggerDebug "Window position updated"
          [ ("window_id", VString wid)
          ; ("x", VNumber nx); ("y", VNumber ny) ]
      ; MetricsIncrement "window.position_update" 1
          [ ("window_id", VString wid) ] ]
  | None => []
  end.

Definition updateWindowSize_telemetry (wid : string) (nw nh : Z)
  (prev : list WindowState) : list Telemetry :=
  match find_window wid prev with
  | Some _ =>
      [ LoggerDebug "Window size updated"
          [ ("window_id", VString wid)
          ; ("width", VNumber nw); ("height", VNumber nh) ]
      ; MetricsIncrement "window.resize" 1 [ ("window_id", VString wid) ]
      ; MetricsGauge "window.size" (nw * nh) [ ("window_id", VString wid) ] ]
  | None => []
  end.

(** What one call sends; restoreWindow and focusWindow make no Sentry
    call. *)
Definition telemetry (s : State) (op : Op) : list Telemetry :=
  match op with
  | Open window => openWindow_telemetry window (windows s)
  | Close wid => closeWindow_telemetry wid (windows s)
  | Minimize wid => minimizeWindow_telemetry wid (windows s)
  | Maximize wid => maximizeWindow_telemetry wid (windows s)
  | Restore _ => []
  | Focus _ => []
  | UpdateWindowPosition wid nx ny =>
      updateWindowPosition_telemetry wid nx ny (windows s)
  | UpdateWindowSize wid nw nh =>
      updateWindowSize_telemetry wid nw nh (windows s)
  end.

(** What a sequence of calls sends, in order. *)
Fixpoint run_telemetry (ops : list Op) (s : State) : list Telemetry :=
  match ops with
  | [] => []
  | op :: ops' => telemetry s op ++ run_telemetry ops' (step s op)
  end.

Definition is_increment (name : string) (t : Telemetry) : bool :=
  match t with
  | MetricsIncrement n _ _ => n =? name
  | _ => false
  end.

Definition count_increments (name : string) (trace : list Telemetry) : nat :=
  List.length (filter (is_increment name) trace).

(** The value of the last gauge [name] of a trace, [d] when there is none. *)
Definition last_gauge (name : string) (d : Z) (trace : list Telemetry) : Z :=
  fold_left (fun acc t =>
               match t with
               | MetricsGauge n v _ => if n =? name then v else acc
               | _ => acc
               end) trace d.

(** * The chat route

    [POST] of the chat endpoint: validation of the request body, the prompt
    built from the conversation, and the translation of the agent SDK's
    messages into server-sent events.  The metric and logger calls of the
    route do not influence the response and are left out; the two counters
    they report are kept in the stream state. *)

Module Chat.

Definition SYSTEM_PROMPT : string :=
"You are a helpful personal assistant designed to help with general research, questions, and tasks.

Your role is to:
- Answer questions on any topic accurately and thoroughly
- Help with research by searching the web for current information
- Assist with writing, editing, and brainstorming
- Provide explanations and summaries of complex topics
- Help solve problems and think through decisions

Guidelines:
- Be friendly, clear, and conversational
- Use web search when you need current information, facts you're unsure about, or real-time data
- Keep responses concise but complete - expand when the topic warrants depth
- Use markdown formatting when it helps readability (bullet points, code blocks, etc.)
- Be honest when you don't know something and offer to search for answers".

(** The line feed of the template literals. *)
Definition nl : string := String (Ascii.ascii_of_nat 10) EmptyString.

Inductive Role : Type := user | assistant.

Record MessageInput : Type := mkMessage
  { role : Role
  ; content : string
  }.

(** The parsed request: [request.json()] throws on [Malformed]; in
    [Parsed messages], [None] stands for a [messages] that is missing or is
    not an array. *)
Inductive Body : Type :=
| Malformed
| Parsed (messages : option (list MessageInput)).

(** What [POST] returns: a JSON error with its status, or the event stream
    fed by the SDK query on [prompt]. *)
Inductive Reply : Type :=
| JsonError (status : Z) (error : string)
| EventStream (prompt : string).

(** [m.role === 'user'] *)
Definition is_user (m : MessageInput) : bool :=
  match role m with
  | user => true
  | assistant => false
  end.

(** [Array.prototype.pop]: the last element, [undefined] on the empty
    array. *)
Fixpoint pop {A : Type} (l : list A) : option A :=
  match l with
  | [] => None
  | [a] => Some a
  | _ :: l' => pop l'
  end.

Definition lastUserMessage (messages : list MessageInput)
  : option MessageInput :=
  pop (filter is_user messages).

(** [`${m.role === 'user' ? 'User' : 'Assistant'}: ${m.content}`] *)
Definition line (m : MessageInput) : string :=
  (if is_user m then "User" else "Assistant") ++ ": " ++ content m.

(** [messages.slice(0, -1).map(...).join('\n\n')] *)
Definition conversationContext (messages : list MessageInput) : string :=
  String.concat (nl ++ nl) (map line (removelast messages)).

Definition fullPrompt (messages : list MessageInput)
  (lastUser : MessageInput) : string :=
  match conversationContext messages with
  | EmptyString =>
      SYSTEM_PROMPT ++ nl ++ nl ++ "User: " ++ content lastUser
  | context =>
      SYSTEM_PROMPT ++ nl ++ nl ++ "Previous conversation:" ++ nl
      ++ context ++ nl ++ nl ++ "User: " ++ content lastUser
  end.

Definition POST (body : Body) : Reply :=
  match body with
  | Malformed =>
      JsonError 500
        "Failed to process chat request. Check server logs for details."
  | Parsed None => JsonError 400 "Messages array is required"
  | Parsed (Some messages) =>
      match lastUserMessage messages with
      | None => JsonError 400 "No user message found"
      | Some m => EventStream (fullPrompt messages m)
      end
  end.

(** The messages the SDK query yields, as far as [start] looks into them. *)
Inductive Delta : Type :=
| text_delta (text : string)
| other_delta.

Inductive Event : Type :=
| content_block_delta (delta : option Delta)
| other_event.

Inductive Block : Type :=
| tool_use (name : string)
| other_block.

Inductive SDKMessage : Type :=
| stream_event (event : Event)
| assistant_message (content : option (list Block))
| tool_progress (tool_name : string) (elapsed_time_seconds : Z)
| result (subtype : string)
| other_message.

(** The object given to [JSON.stringify] in a [data:] line. *)
Inductive Payload : Type :=
| send_text_delta (text : string)
| send_tool_start (tool : string)
| send_tool_progress (tool : string) (elapsed : Z)
| send_done
| send_error (message : string).

(** A chunk given to [controller.enqueue]: a [data:] line with a payload,
    or the line [data: [DONE]]. *)
Inductive Chunk : Type :=
| data (payload : Payload)
| data_DONE.

Record Stream : Type := mkStream
  { enqueued : list Chunk
  ; closed : bool
  ; toolUseCount : nat
  ; textChunkCount : nat
  }.

Definition empty_stream : Stream := mkStream [] false 0 0.

Definition enqueue (c : Chunk) (st : Stream) : Stream :=
  mkStream (enqueued st ++ [c]) (closed st)
           (toolUseCount st) (textChunkCount st).

Definition close (st : Stream) : Stream :=
  mkStream (enqueued st) true (toolUseCount st) (textChunkCount st).

Definition count_text (st : Stream) : Stream :=
  mkStream (enqueued st) (closed st) (toolUseCount st) (S (textChunkCount st)).

Definition count_tool (st : Stream) : Stream :=
  mkStream (enqueued st) (closed st) (S (toolUseCount st)) (textChunkCount st).

(** The body of the [for await] loop: the five [if]s in order. *)
Definition on_message (message : SDKMessage) (st : Stream) : Stream :=
  let st :=
    match message with
    | stream_event (content_block_delta (Some (text_delta text))) =>
        enqueue (data (send_text_delta text)) (count_text st)
    | _ => st
    end in
  let st :=
    match message with
    | assistant_message (Some content) =>
        fold_left
          (fun st block =>
             match block with
             | tool_use name =>
                 enqueue (data (send_tool_start name)) (count_tool st)
             | other_block => st
             end) content st
    | _ => st
    end in
  let st :=
    match message with
    | tool_progress tool_name elapsed =>
        enqueue (data (send_tool_progress tool_name elapsed)) st
    | _ => st
    end in
  let st :=
    match message with
    | result subtype =>
        if subtype =? "success" then enqueue (data send_done) st else st
    | _ => st
    end in
  let st :=
    match message with
    | result subtype =>
        if negb (subtype =? "success")
        then enqueue (data (send_error "Query did not complete successfully"))
                     st
        else st
    | _ => st
    end in
  st.

(** [start(controller)]: the loop over the messages the query yields, then
    the end of the stream.  [failed] says that the query threw after
    yielding [messages]. *)
Definition start (messages : list SDKMessage) (failed : bool) : Stream :=
  let st := fold_left (fun st m => on_message m st) messages empty_stream in
  if failed
  then close (enqueue (data (send_error "Stream error occurred")) st)
  else close (enqueue data_DONE st).

(** The chunks one message gives rise to. *)
Definition chunks_of (message : SDKMessage) : list Chunk :=
  enqueued (on_message message empty_stream).

Definition is_text_chunk (c : Chunk) : bool :=
  match c with data (send_text_delta _) => true | _ => false end.

Definition is_tool_start_chunk (c : Chunk) : bool :=
  match c with data (send_tool_start _) => true | _ => false end.

Definition is_DONE (c : Chunk) : bool :=
  match c with data_DONE => true | _ => false end.

(** ** The request before any typing

    [request.json()] is cast to [MessageInput[]] without a check, so the
    handler also runs on elements the type excludes.  A [RawMessage] is a
    message object as parsed: its [role] is a string ([None] when it is
    missing or is not a string) and its [content] is a string, [null] or
    missing.  Elements that are not objects, and contents of other kinds,
    are not modelled. *)

Inductive RawContent : Type :=
| content_missing
| content_null
| content_text (text : string).

Record RawMessage : Type := mkRaw
  { raw_role : option string
  ; raw_content : RawContent
  }.

(** [m.role === 'user'] *)
Definition raw_is_user (m : RawMessage) : bool :=
  match raw_role m with
  | Some r => r =? "user"
  | None => false
  end.

(** [`${m.content}`] *)
Definition raw_content_string (c : RawContent) : string :=
  match c with
  | content_missing => "undefined"
  | content_null => "null"
  | content_text text => text
  end.

Definition raw_line (m : RawMessage) : string :=
  (if raw_is_user m then "User" else "Assistant") ++ ": "
  ++ raw_content_string (raw_content m).

Definition raw_conversationContext (messages : list RawMessage) : string :=
  String.concat (nl ++ nl) (map raw_line (removelast messages)).

(** [POST] on a parsed body whose [messages] is [messages].  Reading
    [lastUserMessage.content.length] for the log entry throws when the
    content is [null] or missing; the handler's outer [catch] then answers
    500. *)
Definition POST_raw (messages : option (list RawMessage)) : Reply :=
  match messages with
  | None => JsonError 400 "Messages array is required"
  | Some messages =>
      match pop (filter raw_is_user messages) with
      | None => JsonError 400 "No user message found"
      | Some lastUser =>
          match raw_content lastUser with
          | content_text text =>
              EventStream
                match raw_conversationContext messages with
                | EmptyString =>
                    SYSTEM_PROMPT ++ nl ++ nl ++ "User: " ++ text
                | context =>
                    SYSTEM_PROMPT ++ nl ++ nl ++ "Previous conversation:"
                    ++ nl ++ context ++ nl ++ nl ++ "User: " ++ text
                end
          | _ =>
              JsonError 500
                "Failed to process chat request. Check server logs for details."
          end
      end
  end.

(** A message of the declared type, as the parsed object it is. *)
Definition raw_of (m : MessageInput) : RawMessage :=
  mkRaw (Some match role m with
              | user => "user"
              | assistant => "assistant"
              end)
        (content_text (content m)).

End Chat.

(** ** Lemmas on the list rewrites *)

Section Rewrites.

Variable wid : string.

Lemma ids_map (f : WindowState -> WindowState) (ws : list WindowState) :
  (forall w, id (f w) = id w) -> ids (map f ws) = ids ws.
Proof.
  intros Hf. unfold ids. rewrite map_map. apply map_ext. exact Hf.
Qed.

Lemma ids_sweep (hit miss : WindowState -> WindowState) ws :
  (forall w, id (hit w) = id w) -> (forall w, id (miss w) = id w) ->
  ids (map (fun w => if id w =? wid then hit w else miss w) ws) = ids ws.
Proof.
  intros Hh Hm. apply ids_map. intros w. destruct (id w =? wid); auto.
Qed.

Lemma ids_filter (ws : list WindowState) :
  ids (filter (fun w => negb (id w =? wid)) ws)
  = filter (fun i => negb (i =? wid)) (ids ws).
Proof.
  induction ws as [|w ws IH]; simpl; [reflexivity|].
  destruct (id w =? wid); simpl; now rewrite IH.
Qed.

Lemma find_window_None (ws : list WindowState) :
  find_window wid ws = None <-> ~ In wid (ids ws).
Proof.
  unfold find_window. induction ws as [|w ws IH]; simpl.
  - tauto.
  - destruct (String.eqb_spec (id w) wid) as [E|E].
    + split; [discriminate | intros H; exfalso; apply H; now left].
    + rewrite IH. tauto.
Qed.

Lemma find_window_Some (ws : list WindowState) (w : WindowState) :
  find_window wid ws = Some w -> In w ws /\ id w = wid.
Proof.
  unfold find_window. intros H. apply find_some in H.
  destruct H as [Hin He]. split; [exact Hin|]. now apply String.eqb_eq.
Qed.

(** A map that touches no window when the id is absent. *)
Lemma map_absent (hit : WindowState -> WindowState) ws :
  find_window wid ws = None ->
  map (fun w => if id w =? wid then hit w else w) ws = ws.
Proof.
  unfold find_window. induction ws as [|w ws IH]; simpl; [reflexivity|].
  destruct (id w =? wid) eqn:E; [discriminate|].
  intros H. now rewrite IH.
Qed.

Lemma sweep_absent (hit miss : WindowState -> WindowState) ws :
  find_window wid ws = None ->
  map (fun w => if id w =? wid then hit w else miss w) ws = map miss ws.
Proof.
  unfold find_window. induction ws as [|w ws IH]; simpl; [reflexivity|].
  destruct (id w =? wid) eqn:E; [discriminate|].
  intros H. now rewrite IH.
Qed.

Lemma filter_absent (ws : list WindowState) :
  find_window wid ws = None ->
  filter (fun w => negb (id w =? wid)) ws = ws.
Proof.
  unfold find_window. induction ws as [|w ws IH]; simpl; [reflexivity|].
  destruct (id w =? wid) eqn:E; [discriminate|].
  intros H. simpl. now rewrite IH.
Qed.

(** The focus sweep leaves as many focused windows as there are windows
    carrying the target id. *)
Lemma focused_count_sweep (hit miss : WindowState -> WindowState) ws :
  (forall w, isFocused (hit w) = true) ->
  (forall w, isFocused (miss w) = false) ->
  focused_count (map (fun w => if id w =? wid then hit w else miss w) ws)
  = count_occ string_dec (ids ws) wid.
Proof.
  intros Hh Hm. unfold focused_count.
  induction ws as [|w ws IH]; simpl; [reflexivity|].
  destruct (String.eqb_spec (id w) wid) as [E|E].
  - rewrite Hh. simpl. rewrite IH.
    destruct (string_dec (id w) wid); [reflexivity | contradiction].
  - rewrite Hm. rewrite IH.
    destruct (string_dec (id w) wid); [contradiction | reflexivity].
Qed.

End Rewrites.

Lemma focused_count_map_le (f : WindowState -> WindowState) ws :
  (forall w, isFocused (f w) = true -> isFocused w = true) ->
  (focused_count (map f ws) <= focused_count ws)%nat.
Proof.
  intros Hf. unfold focused_count.
  induction ws as [|w ws IH]; simpl; [lia|].
  destruct (isFocused (f w)) eqn:E.
  - rewrite (Hf w E). simpl. lia.
  - destruct (isFocused w); simpl; lia.
Qed.

Lemma focused_count_filter_le (p : WindowState -> bool) ws :
  (focused_count (filter p ws) <= focused_count ws)%nat.
Proof.
  unfold focused_count.
  induction ws as [|w ws IH]; simpl; [lia|].
  destruct (p w); simpl; destruct (isFocused w); simpl; lia.
Qed.

Lemma focused_count_defocus ws :
  focused_count (map (fun w => set_isFocused false w) ws) = 0%nat.
Proof.
  unfold focused_count. induction ws as [|w ws IH]; simpl; auto.
Qed.

Lemma focused_count_app ws1 ws2 :
  focused_count (ws1 ++ ws2) = (focused_count ws1 + focused_count ws2)%nat.
Proof.
  unfold focused_count. now rewrite filter_app, length_app.
Qed.

Lemma count_occ_unique (l : list string) (i : string) :
  NoDup l -> (count_occ string_dec l i <= 1)%nat.
Proof.
  intros H. now apply NoDup_count_occ.
Qed.

(** ** The state invariant carried along every run *)

Lemma wf_initial : wf initial.
Proof.
  split; [unfold unique_ids; simpl; apply NoDup_nil | unfold focus_exclusive, focused_count, initial; simpl; lia].
Qed.

Lemma unique_ids_openWindow window s :
  unique_ids s -> unique_ids (openWindow window s).
Proof.
  unfold unique_ids, openWindow. simpl. intros H.
  destruct (find_window (Init.id window) (windows s)) as [e|] eqn:F.
  - destruct (isMinimized e); rewrite ids_sweep; auto.
  - unfold ids. rewrite map_app. fold (ids (windows s)).
    change (map id (map (fun w => set_isFocused false w) (windows s)))
      with (ids (map (fun w => set_isFocused false w) (windows s))).
    rewrite ids_map by reflexivity. simpl.
    apply NoDup_app; [exact H | repeat constructor; simpl; tauto |].
    intros i Hi [<-|[]]. apply find_window_None in F. contradiction.
Qed.

Lemma unique_ids_step s op : unique_ids s -> unique_ids (step s op).
Proof.
  destruct op; simpl; try apply unique_ids_openWindow;
    unfold unique_ids; simpl; intros H.
  - rewrite ids_filter. now apply NoDup_filter.
  - rewrite ids_map; auto. intros w. now destruct (id w =? wid).
  - rewrite ids_map; auto. intros w. now destruct (id w =? wid).
  - rewrite ids_sweep; auto.
  - rewrite ids_sweep; auto.
  - rewrite ids_map; auto. intros w. now destruct (id w =? wid).
  - rewrite ids_map; auto. intros w. now destruct (id w =? wid).
Qed.

Lemma focus_exclusive_step s op : wf s -> focus_exclusive (step s op).
Proof.
  intros [Hu Hf]. unfold focus_exclusive in *.
  destruct op; simpl.
  - unfold openWindow; simpl.
    destruct (find_window (Init.id window) (windows s)) as [e|] eqn:F.
    + destruct (isMinimized e);
        rewrite focused_count_sweep by reflexivity;
        now apply count_occ_unique.
    + rewrite focused_count_app, focused_count_defocus.
      unfold focused_count. simpl. lia.
  - etransitivity; [apply focused_count_filter_le | exact Hf].
  - etransitivity; [apply focused_count_map_le | exact Hf].
    intros w. destruct (id w =? wid); simpl; [discriminate | auto].
  - etransitivity; [apply focused_count_map_le | exact Hf].
    intros w. destruct (id w =? wid); simpl; auto.
  - rewrite focused_count_sweep by reflexivity. now apply count_occ_unique.
  - rewrite focused_count_sweep by reflexivity. now apply count_occ_unique.
  - etransitivity; [apply focused_count_map_le | exact Hf].
    intros w. destruct (id w =? wid); simpl; auto.
  - etransitivity; [apply focused_count_map_le | exact Hf].
    intros w. destruct (id w =? wid); simpl; auto.
Qed.

Lemma wf_step s op : wf s -> wf (step s op).
Proof.
  intros H. split; [apply unique_ids_step, H | now apply focus_exclusive_step].
Qed.

Lemma wf_run ops : forall s, wf s -> wf (run ops s).
Proof.
  induction ops as [|op ops IH]; intros s H; simpl; [exact H|].
  apply IH, wf_step, H.
Qed.

Lemma run_app ops1 ops2 s : run (ops1 ++ ops2) s = run ops2 (run ops1 s).
Proof. unfold run. apply fold_left_app. Qed.

(** ** Focus exclusivity *)

(** C1. From the initial state (no window, counter 100), after every finite
    sequence of open, close, minimize, maximize, restore, focus,
    updateWindowPosition and updateWindowSize calls, at most one window of
    the collection has [isFocused = true]. *)
Theorem focus_exclusivity :
  forall ops : list Op,
    (focused_count (windows (run ops initial)) <= 1)%nat.
Proof.
  intros ops. apply (wf_run ops initial wf_initial).
Qed.

(** ** Minimized windows and focus *)

Lemma find_window_unique (wid : string) ws w :
  NoDup (ids ws) -> In w ws -> id w = wid -> find_window wid ws = Some w.
Proof.
  unfold find_window. induction ws as [|v ws IH]; simpl; [tauto|].
  intros Hnd Hin Hid. inversion Hnd as [|i l Hni Hnd']; subst.
  destruct (String.eqb_spec (id v) (id w)) as [E|E].
  - destruct Hin as [->|Hin]; [reflexivity|].
    exfalso. apply Hni. rewrite E. unfold ids. now apply in_map.
  - destruct Hin as [->|Hin]; [contradiction|]. now apply IH.
Qed.

Lemma minimized_unfocused_sweep (wid : string) hit miss ws :
  (forall w, In w ws -> id w = wid ->
             isMinimized (hit w) = true -> isFocused (hit w) = false) ->
  (forall w, isFocused (miss w) = false) ->
  forall w', In w' (map (fun w => if id w =? wid then hit w else miss w) ws) ->
             isMinimized w' = true -> isFocused w' = false.
Proof.
  intros Hh Hm w' Hin. apply in_map_iff in Hin. destruct Hin as [w [<- Hin]].
  destruct (String.eqb_spec (id w) wid) as [E|E]; [now apply Hh | intros _; apply Hm].
Qed.

Lemma minimized_unfocused_map (f : WindowState -> WindowState) ws :
  (forall w, In w ws -> isMinimized w = true -> isFocused w = false) ->
  (forall w, (isMinimized w = true -> isFocused w = false) ->
             isMinimized (f w) = true -> isFocused (f w) = false) ->
  forall w', In w' (map f ws) -> isMinimized w' = true -> isFocused w' = false.
Proof.
  intros H Hf w' Hin. apply in_map_iff in Hin. destruct Hin as [w [<- Hin]].
  apply Hf. now apply H.
Qed.

Lemma minimized_unfocused_step s op :
  unique_ids s -> minimized_unfocused s ->
  keeps_minimized_unfocused s op = true ->
  minimized_unfocused (step s op).
Proof.
  intros Hu Hm Hk. unfold minimized_unfocused in *.
  destruct op; simpl in *.
  - unfold openWindow; simpl.
    destruct (find_window (Init.id window) (windows s)) as [e|] eqn:F.
    + destruct (isMinimized e) eqn:Me.
      * apply minimized_unfocused_sweep; [|reflexivity]. discriminate.
      * apply minimized_unfocused_sweep; [|reflexivity].
        intros w Hin Hid. simpl.
        rewrite (find_window_unique _ _ _ Hu Hin Hid) in F.
        injection F as ->. congruence.
    + intros w' Hin. apply in_app_iff in Hin. destruct Hin as [Hin|[<-|[]]].
      * apply in_map_iff in Hin. destruct Hin as [w [<- _]]. reflexivity.
      * simpl. apply negb_true_iff in Hk. congruence.
  - intros w Hin. apply filter_In in Hin. now apply Hm.
  - apply minimized_unfocused_map; [exact Hm|].
    intros w Hw. destruct (id w =? wid); simpl; auto.
  - apply minimized_unfocused_map; [exact Hm|].
    intros w Hw. destruct (id w =? wid); simpl; auto.
  - apply minimized_unfocused_sweep; [|reflexivity]. discriminate.
  - apply minimized_unfocused_sweep; [|reflexivity].
    intros w Hin Hid. simpl.
    rewrite (find_window_unique _ _ _ Hu Hin Hid) in Hk.
    apply negb_true_iff in Hk. congruence.
  - apply minimized_unfocused_map; [exact Hm|].
    intros w Hw. destruct (id w =? wid); simpl; auto.
  - apply minimized_unfocused_map; [exact Hm|].
    intros w Hw. destruct (id w =? wid); simpl; auto.
Qed.

Lemma minimized_unfocused_run ops :
  forall s, wf s -> minimized_unfocused s ->
            all_keep_minimized_unfocused ops s = true ->
            minimized_unfocused (run ops s).
Proof.
  induction ops as [|op ops IH]; intros s Hwf Hm Hk; simpl in *; [exact Hm|].
  apply andb_true_iff in Hk. destruct Hk as [Hk1 Hk2].
  apply IH; [now apply wf_step | | exact Hk2].
  apply minimized_unfocused_step; [apply Hwf | exact Hm | exact Hk1].
Qed.

(** C2, as the spec states it, fails: open "a", minimize "a", focus "a"
    leaves window "a" both minimized and focused. *)
Lemma minimized_focus_exclusion_counterexample :
  ~ (forall ops : list Op, minimized_unfocused (run ops initial)).
Proof.
  intros H.
  specialize (H [Open notes_a; Minimize "a"; Focus "a"]
                (mkWindowState "a" "Notes" 0 0 400 300 102 true true false)).
  simpl in H. discriminate H; [now left | reflexivity].
Qed.

Lemma never_focuses_minimized_keeps s op :
  never_focuses_minimized op = true -> keeps_minimized_unfocused s op = true.
Proof.
  destruct op; simpl; try reflexivity; try discriminate.
  intros H. now destruct (find_window (Init.id window) (windows s)).
Qed.

Lemma never_focuses_minimized_all ops :
  (forall op, In op ops -> never_focuses_minimized op = true) ->
  forall s, all_keep_minimized_unfocused ops s = true.
Proof.
  induction ops as [|op ops IH]; intros H s; simpl; [reflexivity|].
  apply andb_true_iff. split.
  - apply never_focuses_minimized_keeps, H. now left.
  - apply IH. intros o Ho. apply H. now right.
Qed.

(** C2 (amended). From the initial state, when the calls take effect one
    after another in the order of the sequence (each on the state the
    previous one left, as when every call is made in an event of its own),
    after every finite sequence in which focusWindow never takes effect on a
    window that is minimized at that time and openWindow never inserts a
    fresh window whose argument has [isMinimized = true], every window with
    [isMinimized = true] has [isFocused = false]; each such call keeps this
    property on any state with unique ids.  Whatever the order in which the
    calls of a sequence take effect, and however often each does, the
    property holds when the sequence holds no focusWindow call and no
    openWindow whose argument has [isMinimized = true].  focusWindow on a
    minimized window leaves it minimized and makes it focused. *)
Theorem minimized_focus_exclusion :
  (forall ops : list Op,
      all_keep_minimized_unfocused ops initial = true ->
      forall w, In w (windows (run ops initial)) ->
                isMinimized w = true -> isFocused w = false)
  /\
  (forall (s : State) (w : WindowState),
      In w (windows s) -> isMinimized w = true ->
      exists w', In w' (windows (focusWindow (id w) s))
                 /\ id w' = id w
                 /\ isMinimized w' = true /\ isFocused w' = true)
  /\
  (forall (s : State) (op : Op),
      unique_ids s ->
      (forall w, In w (windows s) ->
                 isMinimized w = true -> isFocused w = false) ->
      keeps_minimized_unfocused s op = true ->
      forall w, In w (windows (step s op)) ->
                isMinimized w = true -> isFocused w = false)
  /\
  (forall calls effects : list Op,
      (forall op, In op calls -> never_focuses_minimized op = true) ->
      (forall op, In op effects -> In op calls) ->
      forall w, In w (windows (run effects initial)) ->
                isMinimized w = true -> isFocused w = false).
Proof.
  split; [|split; [|split]].
  - intros ops Hk.
    apply (minimized_unfocused_run ops initial wf_initial); [|exact Hk].
    intros w [].
  - intros s w Hin Hmin.
    exists (raise_focused (topZIndex s + 1) w). repeat split; auto.
    unfold focusWindow; simpl. apply in_map_iff. exists w.
    now rewrite String.eqb_refl.
  - intros s op Hu Hm Hk.
    exact (minimized_unfocused_step s op Hu Hm Hk).
  - intros calls effects Hc He.
    apply (minimized_unfocused_run effects initial wf_initial);
      [intros w [] |].
    apply never_focuses_minimized_all. intros op Ho. apply Hc, He, Ho.
Qed.

Lemma minimized_focus_exclusion_witness :
  (isFocused (mkWindowState "a" "Notes" 0 0 400 300 101 false true false)
   = false)
  /\
  (exists w', In w' (windows (focusWindow "a"
                       (run [Open notes_a; Minimize "a"] initial)))
              /\ id w' = "a"
              /\ isMinimized w' = true /\ isFocused w' = true)
  /\
  (isFocused (mkWindowState "a" "Notes" 0 0 400 300 101 false true false)
   = false).
Proof.
  destruct minimized_focus_exclusion as (Hrun & Hfocus & _ & Hany).
  split; [|split].
  - apply (Hrun [Open notes_a; Open notes_b; Minimize "a"; Focus "b"]);
      [reflexivity | simpl; now left | reflexivity].
  - apply (Hfocus (run [Open notes_a; Minimize "a"] initial)
             (mkWindowState "a" "Notes" 0 0 400 300 101 false true false));
      [simpl; now left | reflexivity].
  - apply (Hany [Open notes_a; Restore "b"; Minimize "a"]
                [Minimize "a"; Open notes_a; Minimize "a"; Restore "b"]).
    + intros op [<-|[<-|[<-|[]]]]; reflexivity.
    + intros op [<-|[<-|[<-|[<-|[]]]]]; simpl; tauto.
    + simpl. now left.
    + reflexivity.
Defined.

(** ** Calls on an id that is not in the collection *)

Lemma State_eta (s : State) :
  {| windows := windows s; topZIndex := topZIndex s |} = s.
Proof. now destruct s. Qed.

(** C3, as the spec states it, fails: with window "a" open and focused,
    focusWindow "b" and restoreWindow "b" (no window "b") take focus away
    from "a" and move the counter from 101 to 102. *)
Lemma absent_id_noop_counterexample :
  ~ (forall (s : State) (wid : string),
        find_window wid (windows s) = None ->
        closeWindow wid s = s /\ minimizeWindow wid s = s
        /\ maximizeWindow wid s = s
        /\ restoreWindow wid s = s /\ focusWindow wid s = s
        /\ (forall nx ny, updateWindowPosition wid nx ny s = s)
        /\ (forall nw nh, updateWindowSize wid nw nh s = s)).
Proof.
  intros H.
  destruct (H (run [Open notes_a] initial) "b" eq_refl)
    as (_ & _ & _ & _ & Hf & _).
  discriminate Hf.
Qed.

(** C3 (amended). For every state and every id that no window carries:
    closeWindow, minimizeWindow, maximizeWindow, updateWindowPosition and
    updateWindowSize return the state unchanged (same collection, same
    counter); restoreWindow and focusWindow set [isFocused = false] on every
    window, change no other field and no position in the sequence, and add 1
    to the counter.  Every operation is a total function of the state. *)
Theorem absent_id_behaviour :
  forall (s : State) (wid : string),
    find_window wid (windows s) = None ->
    closeWindow wid s = s
    /\ minimizeWindow wid s = s
    /\ maximizeWindow wid s = s
    /\ (forall nx ny, updateWindowPosition wid nx ny s = s)
    /\ (forall nw nh, updateWindowSize wid nw nh s = s)
    /\ restoreWindow wid s = defocus_all s
    /\ focusWindow wid s = defocus_all s
    /\ topZIndex (defocus_all s) = topZIndex s + 1
    /\ (forall i w, nth_error (windows s) i = Some w ->
                    nth_error (windows (defocus_all s)) i
                    = Some (mkWindowState (id w) (title w) (x w) (y w)
                              (width w) (height w) (zIndex w)
                              false (isMinimized w) (isMaximized w))).
Proof.
  intros s wid F.
  repeat split.
  - unfold closeWindow. rewrite filter_absent by exact F. apply State_eta.
  - unfold minimizeWindow. rewrite map_absent by exact F. apply State_eta.
  - unfold maximizeWindow.
    rewrite (map_absent wid (fun w => set_isMaximized (negb (isMaximized w)) w))
      by exact F.
    apply State_eta.
  - intros nx ny. unfold updateWindowPosition.
    rewrite map_absent by exact F. apply State_eta.
  - intros nw nh. unfold updateWindowSize.
    rewrite map_absent by exact F. apply State_eta.
  - unfold restoreWindow, defocus_all; simpl.
    now rewrite (sweep_absent wid (raise_restored (topZIndex s + 1))
                   (fun w => set_isFocused false w)) by exact F.
  - unfold focusWindow, defocus_all; simpl.
    now rewrite (sweep_absent wid (raise_focused (topZIndex s + 1))
                   (fun w => set_isFocused false w)) by exact F.
  - intros i w Hn. unfold defocus_all; simpl.
    rewrite nth_error_map, Hn. reflexivity.
Qed.

Lemma absent_id_behaviour_witness :
  closeWindow "b" (run [Open notes_a] initial) = run [Open notes_a] initial
  /\ topZIndex (focusWindow "b" (run [Open notes_a] initial)) = 102
  /\ windows (focusWindow "b" (run [Open notes_a] initial))
     = [mkWindowState "a" "Notes" 0 0 400 300 101 false false false].
Proof.
  destruct (absent_id_behaviour (run [Open notes_a] initial) "b" eq_refl)
    as (Hc & _ & _ & _ & _ & _ & Hf & _).
  split; [exact Hc|]. rewrite Hf. split; reflexivity.
Defined.

(** ** Z-order allocation *)

Lemma z_bounded_sweep (wid : string) (newZ top : Z) hit miss ws :
  top <= newZ ->
  (forall w, zIndex (hit w) = newZ) ->
  (forall w, zIndex (miss w) = zIndex w) ->
  Forall (fun w => zIndex w <= top) ws ->
  Forall (fun w => zIndex w <= newZ)
         (map (fun w => if id w =? wid then hit w else miss w) ws).
Proof.
  intros Hle Hh Hm H. apply Forall_map.
  eapply Forall_impl; [|exact H]. simpl. intros w Hw.
  destruct (id w =? wid); [rewrite Hh | rewrite Hm]; lia.
Qed.

Lemma z_bounded_map (top : Z) (f : WindowState -> WindowState) ws :
  (forall w, zIndex (f w) = zIndex w) ->
  Forall (fun w => zIndex w <= top) ws ->
  Forall (fun w => zIndex w <= top) (map f ws).
Proof.
  intros Hf H. apply Forall_map.
  eapply Forall_impl; [|exact H]. simpl. intros w Hw. now rewrite Hf.
Qed.

Lemma z_bounded_step s op : z_bounded s -> z_bounded (step s op).
Proof.
  unfold z_bounded. intros H. destruct op; simpl.
  - unfold openWindow; simpl.
    destruct (find_window (Init.id window) (windows s)) as [e|].
    + destruct (isMinimized e);
        apply (z_bounded_sweep _ _ (topZIndex s)); auto; lia.
    + apply Forall_app. split.
      * apply Forall_map. eapply Forall_impl; [|exact H].
        simpl. intros w Hw. lia.
      * repeat constructor. simpl. lia.
  - apply Forall_forall. intros w Hin. apply filter_In in Hin.
    rewrite Forall_forall in H. now apply H.
  - apply z_bounded_map; [|exact H]. intros w. now destruct (id w =? wid).
  - apply z_bounded_map; [|exact H]. intros w. now destruct (id w =? wid).
  - apply (z_bounded_sweep _ _ (topZIndex s)); auto; lia.
  - apply (z_bounded_sweep _ _ (topZIndex s)); auto; lia.
  - apply z_bounded_map; [|exact H]. intros w. now destruct (id w =? wid).
  - apply z_bounded_map; [|exact H]. intros w. now destruct (id w =? wid).
Qed.

Lemma z_bounded_run ops : forall s, z_bounded s -> z_bounded (run ops s).
Proof.
  induction ops as [|op ops IH]; intros s H; simpl; [exact H|].
  apply IH, z_bounded_step, H.
Qed.

Lemma topZIndex_step_le s op : topZIndex s <= topZIndex (step s op).
Proof. destruct op; simpl; lia. Qed.

Lemma topZIndex_run_le ops : forall s, topZIndex s <= topZIndex (run ops s).
Proof.
  induction ops as [|op ops IH]; intros s; simpl; [lia|].
  etransitivity; [apply (topZIndex_step_le s op) | apply IH].
Qed.

Lemma zIndex_sweep (wid : string) (newZ : Z) hit miss ws :
  (forall w, id (hit w) = id w) -> (forall w, id (miss w) = id w) ->
  (forall w, zIndex (hit w) = newZ) ->
  forall w', In w' (map (fun w => if id w =? wid then hit w else miss w) ws) ->
             id w' = wid -> zIndex w' = newZ.
Proof.
  intros Hhi Hmi Hz w' Hin Hid.
  apply in_map_iff in Hin. destruct Hin as [w [<- Hin]].
  destruct (String.eqb_spec (id w) wid) as [E|E]; [apply Hz|].
  rewrite Hmi in Hid. contradiction.
Qed.

Lemma openWindow_target_present window s :
  exists w, In w (windows (openWindow window s)) /\ id w = Init.id window.
Proof.
  unfold openWindow; simpl.
  destruct (find_window (Init.id window) (windows s)) as [e|] eqn:F.
  - apply find_window_Some in F. destruct F as [Hin Hid].
    destruct (isMinimized e).
    + exists (raise_restored (topZIndex s + 1) e). split; [|exact Hid].
      apply in_map_iff. exists e. split; [|exact Hin].
      rewrite Hid. now rewrite String.eqb_refl.
    + exists (raise_focused (topZIndex s + 1) e). split; [|exact Hid].
      apply in_map_iff. exists e. split; [|exact Hin].
      rewrite Hid. now rewrite String.eqb_refl.
  - exists (of_init window (topZIndex s + 1)). split; [|reflexivity].
    apply in_app_iff. right. now left.
Qed.

Lemma openWindow_target_zIndex window s w :
  In w (windows (openWindow window s)) -> id w = Init.id window ->
  zIndex w = topZIndex s + 1.
Proof.
  unfold openWindow; simpl.
  destruct (find_window (Init.id window) (windows s)) as [e|] eqn:F.
  - destruct (isMinimized e); apply zIndex_sweep; reflexivity.
  - intros Hin Hid. apply in_app_iff in Hin. destruct Hin as [Hin|[<-|[]]].
    + exfalso. apply in_map_iff in Hin. destruct Hin as [v [<- Hv]].
      apply find_window_None in F. apply F. rewrite <- Hid.
      unfold ids. simpl. now apply in_map.
    + reflexivity.
Qed.

Lemma raise_in_place (wid : string) (newZ : Z) hit miss ws :
  (forall w, id (hit w) = id w) -> (forall w, zIndex (hit w) = newZ) ->
  (forall w, id (miss w) = id w) -> (forall w, zIndex (miss w) = zIndex w) ->
  forall i w, nth_error ws i = Some w ->
    exists w',
      nth_error (map (fun w => if id w =? wid then hit w else miss w) ws) i
      = Some w'
      /\ id w' = id w
      /\ zIndex w' = (if id w =? wid then newZ else zIndex w).
Proof.
  intros Hi Hz Mi Mz i w Hn.
  exists (if id w =? wid then hit w else miss w).
  rewrite nth_error_map, Hn. simpl.
  destruct (id w =? wid); repeat split; auto.
Qed.

Lemma openWindow_raise_in_place window s i w :
  nth_error (windows s) i = Some w ->
  exists w',
    nth_error (windows (openWindow window s)) i = Some w'
    /\ id w' = id w
    /\ zIndex w' = (if id w =? Init.id window
                    then topZIndex s + 1 else zIndex w).
Proof.
  intros Hn. unfold openWindow; simpl.
  destruct (find_window (Init.id window) (windows s)) as [e|] eqn:F.
  - destruct (isMinimized e);
      (apply (raise_in_place _ (topZIndex s + 1)) with (w := w);
       [reflexivity | reflexivity | reflexivity | reflexivity | exact Hn]).
  - exists (set_isFocused false w).
    rewrite nth_error_app1
      by (rewrite length_map; apply nth_error_Some; congruence).
    rewrite nth_error_map, Hn. simpl. repeat split.
    destruct (String.eqb_spec (id w) (Init.id window)) as [E|E];
      [|reflexivity].
    exfalso. apply find_window_None in F. apply F. rewrite <- E.
    unfold ids. apply in_map. now apply (nth_error_In _ i).
Qed.

(** C4. Over any sequence of operations from the initial state the counter
    never decreases and is at least the [zIndex] of every current window.
    Every openWindow (new, restored from minimized, or refocused),
    restoreWindow and focusWindow call adds exactly 1 to the counter and the
    new counter value is the [zIndex] of the window the call targets: the
    window carrying the id stays in the collection, at its place, and every
    window carrying the id after the call has the new counter value as its
    [zIndex] (openWindow of a fresh id appends that window), while the
    windows with another id keep their place and their [zIndex];
    restoreWindow and focusWindow keep the size of the collection.
    closeWindow,
    minimizeWindow, maximizeWindow, updateWindowPosition and
    updateWindowSize leave the counter unchanged. *)
Theorem z_order_allocation :
  (forall ops : list Op,
      Forall (fun w => zIndex w <= topZIndex (run ops initial))
             (windows (run ops initial)))
  /\ (forall ops1 ops2 : list Op,
         topZIndex (run ops1 initial)
         <= topZIndex (run (ops1 ++ ops2) initial))
  /\ (forall (s : State) (op : Op), topZIndex s <= topZIndex (step s op))
  /\ (forall (s : State) (window : Init.t),
         topZIndex (openWindow window s) = topZIndex s + 1
         /\ (exists w, In w (windows (openWindow window s))
                       /\ id w = Init.id window)
         /\ (forall w, In w (windows (openWindow window s)) ->
                       id w = Init.id window ->
                       zIndex w = topZIndex (openWindow window s))
         /\ (forall i w, nth_error (windows s) i = Some w ->
                         exists w',
                           nth_error (windows (openWindow window s)) i
                           = Some w'
                           /\ id w' = id w
                           /\ zIndex w'
                              = (if id w =? Init.id window
                                 then topZIndex (openWindow window s)
                                 else zIndex w)))
  /\ (forall (s : State) (wid : string),
         topZIndex (restoreWindow wid s) = topZIndex s + 1
         /\ (forall w, In w (windows (restoreWindow wid s)) ->
                       id w = wid ->
                       zIndex w = topZIndex (restoreWindow wid s))
         /\ List.length (windows (restoreWindow wid s))
            = List.length (windows s)
         /\ (forall i w, nth_error (windows s) i = Some w ->
                         exists w',
                           nth_error (windows (restoreWindow wid s)) i
                           = Some w'
                           /\ id w' = id w
                           /\ zIndex w'
                              = (if id w =? wid
                                 then topZIndex (restoreWindow wid s)
                                 else zIndex w)))
  /\ (forall (s : State) (wid : string),
         topZIndex (focusWindow wid s) = topZIndex s + 1
         /\ (forall w, In w (windows (focusWindow wid s)) ->
                       id w = wid ->
                       zIndex w = topZIndex (focusWindow wid s))
         /\ List.length (windows (focusWindow wid s))
            = List.length (windows s)
         /\ (forall i w, nth_error (windows s) i = Some w ->
                         exists w',
                           nth_error (windows (focusWindow wid s)) i
                           = Some w'
                           /\ id w' = id w
                           /\ zIndex w'
                              = (if id w =? wid
                                 then topZIndex (focusWindow wid s)
                                 else zIndex w)))
  /\ (forall (s : State) (wid : string) (a b : Z),
         topZIndex (closeWindow wid s) = topZIndex s
         /\ topZIndex (minimizeWindow wid s) = topZIndex s
         /\ topZIndex (maximizeWindow wid s) = topZIndex s
         /\ topZIndex (updateWindowPosition wid a b s) = topZIndex s
         /\ topZIndex (updateWindowSize wid a b s) = topZIndex s).
Proof.
  split; [|split; [|split; [|split; [|split; [|split]]]]].
  - intros ops. apply (z_bounded_run ops initial).
    unfold z_bounded, initial; simpl. constructor.
  - intros ops1 ops2. rewrite run_app. apply topZIndex_run_le.
  - apply topZIndex_step_le.
  - intros s window. split; [reflexivity|]. split; [|split].
    + apply openWindow_target_present.
    + intros w Hin Hid. exact (openWindow_target_zIndex window s w Hin Hid).
    + intros i w Hn. exact (openWindow_raise_in_place window s i w Hn).
  - intros s wid. split; [reflexivity|]. split; [|split].
    + unfold restoreWindow; simpl. apply zIndex_sweep; reflexivity.
    + unfold restoreWindow; simpl. apply length_map.
    + intros i w Hn. unfold restoreWindow; simpl.
      apply (raise_in_place _ (topZIndex s + 1)) with (w := w);
        [reflexivity | reflexivity | reflexivity | reflexivity | exact Hn].
  - intros s wid. split; [reflexivity|]. split; [|split].
    + unfold focusWindow; simpl. apply zIndex_sweep; reflexivity.
    + unfold focusWindow; simpl. apply length_map.
    + intros i w Hn. unfold focusWindow; simpl.
      apply (raise_in_place _ (topZIndex s + 1)) with (w := w);
        [reflexivity | reflexivity | reflexivity | reflexivity | exact Hn].
  - intros s wid a b. repeat split.
Qed.

Lemma z_order_allocation_witness :
  zIndex (mkWindowState "a" "Notes" 0 0 400 300 103 true false false)
  = topZIndex (openWindow notes_a (run [Open notes_a; Open notes_b] initial))
  /\ exists w',
       nth_error
         (windows (focusWindow "b" (run [Open notes_a; Open notes_b] initial)))
         1
       = Some w'
       /\ id w' = "b"
       /\ zIndex w' = 103.
Proof.
  destruct z_order_allocation as (_ & _ & _ & Ho & _ & Hf & _).
  split.
  - destruct (Ho (run [Open notes_a; Open notes_b] initial) notes_a)
      as (_ & _ & Hz & _).
    apply Hz; [simpl; now left | reflexivity].
  - destruct (Hf (run [Open notes_a; Open notes_b] initial) "b")
      as (_ & _ & _ & Hp).
    apply (Hp 1%nat
              (mkWindowState "b" "Files" 10 20 640 480 102 true false false));
      reflexivity.
Defined.

(** ** openWindow *)

Lemma openWindow_fresh window s :
  find_window (Init.id window) (windows s) = None ->
  windows (openWindow window s)
  = (map (fun w => set_isFocused false w) (windows s)
     ++ [of_init window (topZIndex s + 1)])%list.
Proof. unfold openWindow; simpl. now intros ->. Qed.

Lemma openWindow_existing window s e :
  find_window (Init.id window) (windows s) = Some e ->
  windows (openWindow window s)
  = map (fun w => if id w =? Init.id window
                  then set_zIndex (topZIndex s + 1)
                         (set_isFocused true
                            (set_isMinimized
                               (isMinimized w && negb (isMinimized e)) w))
                  else set_isFocused false w) (windows s).
Proof.
  unfold openWindow; simpl. intros ->.
  destruct (isMinimized e); apply map_ext; intros w;
    destruct (id w =? Init.id window); try reflexivity.
  - unfold raise_restored. now rewrite andb_false_r.
  - unfold raise_focused. rewrite andb_true_r. now destruct w.
Qed.

(** C5. When no window carries the id of the argument, openWindow appends
    exactly one window, with [zIndex] the incremented counter,
    [isFocused = true] and the other fields as given, and sets
    [isFocused = false] on every window that was there, changing nothing
    else of them.  Opening
    [{id:"a", title:"Notes", x:0, y:0, width:400, height:300}] on the
    initial state yields the single window "a", focused, with
    [zIndex = 101]. *)
Theorem open_fresh_id :
  forall (s : State) (window : Init.t),
    find_window (Init.id window) (windows s) = None ->
    topZIndex (openWindow window s) = topZIndex s + 1
    /\ List.length (windows (openWindow window s))
       = S (List.length (windows s))
    /\ nth_error (windows (openWindow window s)) (List.length (windows s))
       = Some (mkWindowState (Init.id window) (Init.title window)
                 (Init.x window) (Init.y window)
                 (Init.width window) (Init.height window)
                 (topZIndex s + 1) true
                 (Init.isMinimized window) (Init.isMaximized window))
    /\ count_occ string_dec (ids (windows (openWindow window s)))
                 (Init.id window) = 1%nat
    /\ (forall i w, nth_error (windows s) i = Some w ->
                    nth_error (windows (openWindow window s)) i
                    = Some (mkWindowState (id w) (title w) (x w) (y w)
                              (width w) (height w) (zIndex w)
                              false (isMinimized w) (isMaximized w)))
    /\ openWindow notes_a initial
       = {| windows :=
              [mkWindowState "a" "Notes" 0 0 400 300 101 true false false]
          ; topZIndex := 101 |}.
Proof.
  intros s window F.
  pose proof (openWindow_fresh window s F) as E.
  split; [reflexivity|]. rewrite E.
  split; [rewrite length_app, length_map; simpl; lia|].
  split.
  { rewrite nth_error_app2 by (rewrite length_map; lia).
    rewrite length_map, Nat.sub_diag. reflexivity. }
  split.
  { unfold ids. rewrite map_app, count_occ_app.
    change (map id (map (fun w => set_isFocused false w) (windows s)))
      with (ids (map (fun w => set_isFocused false w) (windows s))).
    rewrite ids_map by reflexivity.
    apply find_window_None in F.
    rewrite (proj1 (count_occ_not_In string_dec _ _) F). simpl.
    destruct (string_dec (Init.id window) (Init.id window)); congruence. }
  split; [|reflexivity].
  intros i w Hn.
  rewrite nth_error_app1
    by (rewrite length_map; apply nth_error_Some; congruence).
  rewrite nth_error_map, Hn. reflexivity.
Qed.

Lemma open_fresh_id_witness :
  windows (openWindow notes_b (openWindow notes_a initial))
  = [ mkWindowState "a" "Notes" 0 0 400 300 101 false false false
    ; mkWindowState "b" "Files" 10 20 640 480 102 true false false ]
  /\ topZIndex (openWindow notes_b (openWindow notes_a initial)) = 102.
Proof.
  destruct (open_fresh_id (openWindow notes_a initial) notes_b eq_refl)
    as (Hz & _ & _ & _ & _ & _).
  split; [reflexivity | exact Hz].
Defined.

(** C6. When a window with the id of the argument exists, openWindow keeps
    the size of the collection and the ids in place; the stored window keeps
    its [title], [x], [y], [width], [height] (and [isMaximized]), becomes
    focused with [zIndex] the incremented counter and [isMinimized = false];
    every window with another id only loses focus; the other fields of the
    argument play no part. *)
Theorem open_existing_id :
  forall (s : State) (window : Init.t) (e : WindowState),
    find_window (Init.id window) (windows s) = Some e ->
    List.length (windows (openWindow window s)) = List.length (windows s)
    /\ ids (windows (openWindow window s)) = ids (windows s)
    /\ topZIndex (openWindow window s) = topZIndex s + 1
    /\ find_window (Init.id window) (windows (openWindow window s))
       = Some (mkWindowState (id e) (title e) (x e) (y e)
                 (width e) (height e) (topZIndex s + 1)
                 true false (isMaximized e))
    /\ (unique_ids s ->
        forall w', In w' (windows (openWindow window s)) ->
                   id w' = Init.id window ->
                   w' = mkWindowState (id e) (title e) (x e) (y e)
                          (width e) (height e) (topZIndex s + 1)
                          true false (isMaximized e))
    /\ (forall i w, nth_error (windows s) i = Some w ->
                    id w <> Init.id window ->
                    nth_error (windows (openWindow window s)) i
                    = Some (mkWindowState (id w) (title w) (x w) (y w)
                              (width w) (height w) (zIndex w)
                              false (isMinimized w) (isMaximized w)))
    /\ (forall window' : Init.t,
           Init.id window' = Init.id window ->
           openWindow window' s = openWindow window s).
Proof.
  intros s window e F.
  pose proof (openWindow_existing window s e F) as E.
  split; [rewrite E; apply length_map|].
  split; [rewrite E; apply ids_sweep; reflexivity|].
  split; [reflexivity|].
  split.
  { rewrite E. clear E. revert F. unfold find_window.
    induction (windows s) as [|w ws IH]; simpl; [discriminate|].
    destruct (id w =? Init.id window) eqn:Q.
    - intros [= ->]. simpl. rewrite Q.
      unfold set_zIndex, set_isFocused, set_isMinimized; simpl.
      now rewrite andb_negb_r.
    - simpl. rewrite Q. exact IH. }
  split.
  { intros Hu w' Hin Hid. rewrite E in Hin.
    apply in_map_iff in Hin. destruct Hin as [w [<- Hin]].
    destruct (String.eqb_spec (id w) (Init.id window)) as [Q|Q].
    - rewrite (find_window_unique _ _ _ Hu Hin Q) in F.
      injection F as ->.
      unfold set_zIndex, set_isFocused, set_isMinimized; simpl.
      now rewrite andb_negb_r.
    - simpl in Hid. contradiction. }
  split.
  { intros i w Hn Hid. rewrite E, nth_error_map, Hn. simpl.
    apply String.eqb_neq in Hid. rewrite Hid. reflexivity. }
  intros window' Hid. unfold openWindow. rewrite Hid, F. reflexivity.
Qed.

Lemma open_existing_id_witness :
  windows (openWindow (Init.mk "a" "Renamed" 7 7 1 1 false true)
             (run [Open notes_a; Open notes_b; Minimize "a"] initial))
  = [ mkWindowState "a" "Notes" 0 0 400 300 103 true false false
    ; mkWindowState "b" "Files" 10 20 640 480 102 false false false ]
  /\ find_window "a"
       (windows (openWindow (Init.mk "a" "Renamed" 7 7 1 1 false true)
                   (run [Open notes_a; Open notes_b; Minimize "a"] initial)))
     = Some (mkWindowState "a" "Notes" 0 0 400 300 103 true false false).
Proof.
  destruct (open_existing_id
              (run [Open notes_a; Open notes_b; Minimize "a"] initial)
              (Init.mk "a" "Renamed" 7 7 1 1 false true)
              (mkWindowState "a" "Notes" 0 0 400 300 101 false true false)
              eq_refl)
    as (_ & _ & _ & Hf & _).
  split; [reflexivity | exact Hf].
Defined.

(** ** closeWindow *)

Lemma length_filter_ids (wid : string) ws :
  (List.length (filter (fun w => negb (String.eqb (id w) wid)) ws)
   + count_occ string_dec (ids ws) wid)%nat
  = List.length ws.
Proof.
  induction ws as [|w ws IH]; simpl; [reflexivity|].
  destruct (String.eqb_spec (id w) wid) as [E|E]; simpl;
    destruct (string_dec (id w) wid); try contradiction; lia.
Qed.

(** C7. closeWindow removes the windows carrying the id and keeps every
    other window's record as it was; on an id that no window carries it
    returns the state unchanged; closing the same id twice gives the same
    state as closing it once.  After open "a", open "b", close "a" the
    collection holds only "b", with its focus and flags as before. *)
Theorem close_removal_idempotent :
  forall (s : State) (wid : string),
    find_window wid (windows (closeWindow wid s)) = None
    /\ (forall w, In w (windows (closeWindow wid s))
                  <-> In w (windows s) /\ id w <> wid)
    /\ (List.length (windows (closeWindow wid s))
        + count_occ string_dec (ids (windows s)) wid)%nat
       = List.length (windows s)
    /\ topZIndex (closeWindow wid s) = topZIndex s
    /\ (find_window wid (windows s) = None -> closeWindow wid s = s)
    /\ closeWindow wid (closeWindow wid s) = closeWindow wid s
    /\ windows (closeWindow "a" (run [Open notes_a; Open notes_b] initial))
       = [mkWindowState "b" "Files" 10 20 640 480 102 true false false].
Proof.
  intros s wid.
  assert (Hin : forall w, In w (windows (closeWindow wid s))
                          <-> In w (windows s) /\ id w <> wid).
  { intros w. unfold closeWindow; simpl. rewrite filter_In.
    rewrite negb_true_iff, String.eqb_neq. tauto. }
  assert (Hnone : find_window wid (windows (closeWindow wid s)) = None).
  { apply find_window_None. unfold ids. intros H.
    apply in_map_iff in H. destruct H as [w [Hid Hw]].
    apply Hin in Hw. tauto. }
  split; [exact Hnone|]. split; [exact Hin|].
  split; [apply length_filter_ids|].
  split; [reflexivity|].
  split.
  { intros F. unfold closeWindow. rewrite filter_absent by exact F.
    apply State_eta. }
  split; [|reflexivity].
  unfold closeWindow at 1. rewrite filter_absent by exact Hnone.
  reflexivity.
Qed.

Lemma close_removal_idempotent_witness :
  closeWindow "b" (run [Open notes_a] initial) = run [Open notes_a] initial.
Proof.
  destruct (close_removal_idempotent (run [Open notes_a] initial) "b")
    as (_ & _ & _ & _ & H & _).
  apply H. reflexivity.
Defined.

(** ** maximizeWindow *)

(** C8. maximizeWindow flips [isMaximized] of the window carrying the id
    and changes nothing else: not that window's [zIndex], [isFocused],
    [isMinimized], position or size, not any other window, not the counter.
    Applied twice it returns the state it started from.  After open "a",
    two maximize "a" calls give back [isMaximized = false] with the
    [zIndex] of the open. *)
Theorem maximize_involutive_toggle :
  forall (s : State) (wid : string),
    topZIndex (maximizeWindow wid s) = topZIndex s
    /\ List.length (windows (maximizeWindow wid s))
       = List.length (windows s)
    /\ (forall i w, nth_error (windows s) i = Some w ->
                    nth_error (windows (maximizeWindow wid s)) i
                    = Some (if id w =? wid
                            then mkWindowState (id w) (title w) (x w) (y w)
                                   (width w) (height w) (zIndex w)
                                   (isFocused w) (isMinimized w)
                                   (negb (isMaximized w))
                            else w))
    /\ maximizeWindow wid (maximizeWindow wid s) = s
    /\ windows (maximizeWindow "a" (run [Open notes_a] initial))
       = [mkWindowState "a" "Notes" 0 0 400 300 101 true false true]
    /\ windows (maximizeWindow "a"
                  (maximizeWindow "a" (run [Open notes_a] initial)))
       = [mkWindowState "a" "Notes" 0 0 400 300 101 true false false].
Proof.
  intros s wid.
  split; [reflexivity|].
  split; [apply length_map|].
  split.
  { intros i w Hn. unfold maximizeWindow; simpl.
    rewrite nth_error_map, Hn. simpl. now destruct (id w =? wid). }
  split; [|split; reflexivity].
  destruct s as [ws top]. unfold maximizeWindow; simpl. f_equal.
  rewrite map_map. rewrite <- (map_id ws) at 2. apply map_ext.
  intros w. destruct (id w =? wid) eqn:E.
  - simpl. rewrite E. destruct w; simpl. now rewrite negb_involutive.
  - now rewrite E.
Qed.

(** ** minimizeWindow *)

(** C9, as the spec states it, fails on its last part: after open "a",
    minimize "a", focus "a" the window is minimized (and focused), and
    minimize "a" changes the state: it takes the focus away. *)
Lemma minimize_frame_counterexample :
  ~ (forall (s : State) (wid : string) (w : WindowState),
        find_window wid (windows s) = Some w -> isMinimized w = true ->
        minimizeWindow wid s = s).
Proof.
  intros H.
  specialize (H (run [Open notes_a; Minimize "a"; Focus "a"] initial) "a"
                (mkWindowState "a" "Notes" 0 0 400 300 102 true true false)
                eq_refl eq_refl).
  discriminate H.
Qed.

(** C9 (amended). minimizeWindow sets [isMinimized = true] and
    [isFocused = false] on the window carrying the id and leaves every
    other window's record as it was (no other window gains focus, no
    [zIndex] changes); it never changes the counter; it returns the state
    unchanged when no window carries the id, and when the window carrying
    it is already minimized and not focused. *)
Theorem minimize_frame :
  forall (s : State) (wid : string),
    topZIndex (minimizeWindow wid s) = topZIndex s
    /\ List.length (windows (minimizeWindow wid s))
       = List.length (windows s)
    /\ (forall i w, nth_error (windows s) i = Some w ->
                    nth_error (windows (minimizeWindow wid s)) i
                    = Some (if id w =? wid
                            then mkWindowState (id w) (title w) (x w) (y w)
                                   (width w) (height w) (zIndex w)
                                   false true (isMaximized w)
                            else w))
    /\ (find_window wid (windows s) = None -> minimizeWindow wid s = s)
    /\ ((forall w, In w (windows s) -> id w = wid ->
                   isMinimized w = true /\ isFocused w = false) ->
        minimizeWindow wid s = s).
Proof.
  intros s wid.
  split; [reflexivity|].
  split; [apply length_map|].
  split.
  { intros i w Hn. unfold minimizeWindow; simpl.
    rewrite nth_error_map, Hn. simpl. now destruct (id w =? wid). }
  split.
  { intros F. unfold minimizeWindow. rewrite map_absent by exact F.
    apply State_eta. }
  intros H. destruct s as [ws top]. unfold minimizeWindow; simpl in *.
  f_equal. rewrite <- (map_id ws) at 2. apply map_ext_in.
  intros w Hin. destruct (String.eqb_spec (id w) wid) as [E|E]; [|reflexivity].
  destruct (H w Hin E) as [Hm Hf]. destruct w; simpl in *. now subst.
Qed.

Lemma minimize_frame_witness :
  minimizeWindow "a" (run [Open notes_a; Open notes_b; Minimize "a"] initial)
  = run [Open notes_a; Open notes_b; Minimize "a"] initial.
Proof.
  destruct (minimize_frame
              (run [Open notes_a; Open notes_b; Minimize "a"] initial) "a")
    as (_ & _ & _ & _ & H).
  apply H. simpl. intros w [<-|[<-|[]]]; [split; reflexivity | discriminate].
Defined.

(** ** Order of the collection *)


(** * Further properties of the provider *)

(** ** Ids are a key *)

(** X1. From the initial state, after every finite sequence of calls, no
    two windows of the collection carry the same id. *)
Theorem ids_unique_on_every_run :
  forall ops : list Op, NoDup (ids (windows (run ops initial))).
Proof.
  intros ops. apply (wf_run ops initial wf_initial).
Qed.

(** ** Stacking values *)

Lemma zs_sweep (wid : string) (newZ : Z) hit miss ws :
  (forall w, zIndex (hit w) = newZ) ->
  (forall w, zIndex (miss w) = zIndex w) ->
  map zIndex (map (fun w => if id w =? wid then hit w else miss w) ws)
  = map (fun w => if id w =? wid then newZ else zIndex w) ws.
Proof.
  intros Hh Hm. rewrite map_map. apply map_ext. intros w.
  destruct (id w =? wid); auto.
Qed.

Lemma zs_map (f : WindowState -> WindowState) ws :
  (forall w, zIndex (f w) = zIndex w) ->
  map zIndex (map f ws) = map zIndex ws.
Proof. intros Hf. rewrite map_map. now apply map_ext. Qed.

Lemma restamp_absent (wid : string) (newZ : Z) ws :
  ~ In wid (ids ws) ->
  map (fun w => if id w =? wid then newZ else zIndex w) ws = map zIndex ws.
Proof.
  induction ws as [|w ws IH]; simpl; [reflexivity|].
  intros H. destruct (String.eqb_spec (id w) wid) as [E|E]; [tauto|].
  rewrite IH; tauto.
Qed.

Lemma not_in_bounded (newZ top : Z) ws :
  Forall (fun w => zIndex w <= top) ws -> top < newZ ->
  ~ In newZ (map zIndex ws).
Proof.
  intros Hb Hlt Hin. apply in_map_iff in Hin. destruct Hin as [v [Hv Hin]].
  rewrite Forall_forall in Hb. specialize (Hb v Hin). lia.
Qed.

Lemma NoDup_restamp (wid : string) (newZ top : Z) ws :
  NoDup (ids ws) -> NoDup (map zIndex ws) ->
  Forall (fun w => zIndex w <= top) ws -> top < newZ ->
  NoDup (map (fun w => if id w =? wid then newZ else zIndex w) ws).
Proof.
  intros Hi Hz Hb Hlt.
  induction ws as [|w ws IH]; simpl in *; [constructor|].
  inversion Hi as [|i li Hni Hi']; subst.
  inversion Hz as [|z lz Hnz Hz']; subst.
  inversion Hb as [|b lb Hw Hb']; subst.
  destruct (String.eqb_spec (id w) wid) as [E|E].
  - subst wid. rewrite (restamp_absent (id w) newZ ws Hni).
    constructor; [now apply (not_in_bounded newZ top) | exact Hz'].
  - constructor; [|now apply IH].
    intros Hin. apply in_map_iff in Hin. destruct Hin as [v [Hv Hin]].
    destruct (id v =? wid).
    + lia.
    + apply Hnz. rewrite <- Hv. now apply in_map.
Qed.

Lemma NoDup_map_filter {A B : Type} (f : A -> B) (p : A -> bool) l :
  NoDup (map f l) -> NoDup (map f (filter p l)).
Proof.
  induction l as [|a l IH]; simpl; [auto|].
  intros H. inversion H as [|b lb Hn H']; subst.
  destruct (p a); simpl; [|auto].
  constructor; [|auto].
  intros Hin. apply Hn. apply in_map_iff in Hin.
  destruct Hin as [v [Hv Hin]]. apply filter_In in Hin.
  rewrite <- Hv. apply in_map. tauto.
Qed.

Lemma NoDup_map_inj_in {A B : Type} (f : A -> B) l a b :
  NoDup (map f l) -> In a l -> In b l -> f a = f b -> a = b.
Proof.
  induction l as [|c l IH]; simpl; [tauto|].
  intros H Ha Hb E. inversion H as [|d ld Hn H']; subst.
  destruct Ha as [->|Ha], Hb as [->|Hb]; auto.
  - exfalso. apply Hn. rewrite E. now apply in_map.
  - exfalso. apply Hn. rewrite <- E. now apply in_map.
Qed.

Lemma z_distinct_step s op :
  unique_ids s -> z_bounded s -> z_distinct s -> z_distinct (step s op).
Proof.
  unfold unique_ids, z_bounded, z_distinct. intros Hu Hb Hz.
  assert (Hlt : topZIndex s < topZIndex s + 1) by lia.
  destruct op; simpl.
  - unfold openWindow; simpl.
    destruct (find_window (Init.id window) (windows s)) as [e|].
    + destruct (isMinimized e); rewrite (zs_sweep _ (topZIndex s + 1)) by reflexivity;
        now apply (NoDup_restamp _ _ (topZIndex s)).
    + rewrite map_app, zs_map by reflexivity. simpl.
      apply NoDup_app; [exact Hz | repeat constructor; simpl; tauto |].
      intros z Hin [<-|[]].
      now apply (not_in_bounded (topZIndex s + 1) (topZIndex s) (windows s)).
  - now apply NoDup_map_filter.
  - rewrite zs_map; [exact Hz|]. intros w. now destruct (id w =? wid).
  - rewrite zs_map; [exact Hz|]. intros w. now destruct (id w =? wid).
  - rewrite (zs_sweep _ (topZIndex s + 1)) by reflexivity.
    now apply (NoDup_restamp _ _ (topZIndex s)).
  - rewrite (zs_sweep _ (topZIndex s + 1)) by reflexivity.
    now apply (NoDup_restamp _ _ (topZIndex s)).
  - rewrite zs_map; [exact Hz|]. intros w. now destruct (id w =? wid).
  - rewrite zs_map; [exact Hz|]. intros w. now destruct (id w =? wid).
Qed.

Lemma z_distinct_run ops :
  forall s, wf s -> z_bounded s -> z_distinct s -> z_distinct (run ops s).
Proof.
  induction ops as [|op ops IH]; intros s Hwf Hb Hz; simpl; [exact Hz|].
  apply IH; [now apply wf_step | now apply z_bounded_step |].
  apply z_distinct_step; [apply Hwf | exact Hb | exact Hz].
Qed.

Lemma z_bounded_initial : z_bounded initial.
Proof. unfold z_bounded, initial; simpl. constructor. Qed.

(** X2. From the initial state, after every finite sequence of calls, the
    [zIndex] values of the windows are pairwise distinct: a stacking value
    is never handed to two windows. *)
Theorem zIndex_distinct_on_every_run :
  forall ops : list Op, NoDup (map zIndex (windows (run ops initial))).
Proof.
  intros ops.
  apply (z_distinct_run ops initial wf_initial z_bounded_initial).
  unfold z_distinct, initial; simpl. constructor.
Qed.

Lemma focused_on_top_sweep (wid : string) (newZ : Z) hit miss ws :
  (forall w, zIndex (hit w) = newZ) ->
  (forall w, isFocused (miss w) = false) ->
  forall w', In w' (map (fun w => if id w =? wid then hit w else miss w) ws) ->
             isFocused w' = true -> zIndex w' = newZ.
Proof.
  intros Hh Hm w' Hin Hf. apply in_map_iff in Hin.
  destruct Hin as [w [<- Hin]].
  destruct (id w =? wid); [apply Hh | rewrite Hm in Hf; discriminate].
Qed.

Lemma focused_on_top_map (top : Z) (f : WindowState -> WindowState) ws :
  (forall w, In w ws -> isFocused w = true -> zIndex w = top) ->
  (forall w, isFocused (f w) = true ->
             isFocused w = true /\ zIndex (f w) = zIndex w) ->
  forall w', In w' (map f ws) -> isFocused w' = true -> zIndex w' = top.
Proof.
  intros H Hf w' Hin Hw. apply in_map_iff in Hin.
  destruct Hin as [w [<- Hin]]. destruct (Hf w Hw) as [Hfw ->]. now apply H.
Qed.

Lemma focused_on_top_step s op : focused_on_top s -> focused_on_top (step s op).
Proof.
  unfold focused_on_top. intros H. destruct op; simpl.
  - unfold openWindow; simpl.
    destruct (find_window (Init.id window) (windows s)) as [e|].
    + destruct (isMinimized e); apply focused_on_top_sweep; reflexivity.
    + intros w' Hin Hf. apply in_app_iff in Hin.
      destruct Hin as [Hin|[<-|[]]]; [|reflexivity].
      apply in_map_iff in Hin. destruct Hin as [w [<- _]]. discriminate.
  - intros w Hin. apply filter_In in Hin. now apply H.
  - apply focused_on_top_map; [exact H|].
    intros w. destruct (id w =? wid); simpl; [discriminate | auto].
  - apply focused_on_top_map; [exact H|].
    intros w. destruct (id w =? wid); simpl; auto.
  - apply focused_on_top_sweep; reflexivity.
  - apply focused_on_top_sweep; reflexivity.
  - apply focused_on_top_map; [exact H|].
    intros w. destruct (id w =? wid); simpl; auto.
  - apply focused_on_top_map; [exact H|].
    intros w. destruct (id w =? wid); simpl; auto.
Qed.

Lemma focused_on_top_run ops :
  forall s, focused_on_top s -> focused_on_top (run ops s).
Proof.
  induction ops as [|op ops IH]; intros s H; simpl; [exact H|].
  apply IH, focused_on_top_step, H.
Qed.

(** X3. From the initial state, after every finite sequence of calls, a
    focused window carries the current counter value as its [zIndex], and
    every other window of the collection is stacked strictly below it. *)
Theorem focused_window_on_top :
  forall (ops : list Op) (w : WindowState),
    In w (windows (run ops initial)) -> isFocused w = true ->
    zIndex w = topZIndex (run ops initial)
    /\ (forall v, In v (windows (run ops initial)) -> v <> w ->
                  zIndex v < zIndex w).
Proof.
  intros ops w Hin Hf.
  assert (Ht : zIndex w = topZIndex (run ops initial)).
  { apply (focused_on_top_run ops initial); [|exact Hin | exact Hf].
    intros v []. }
  split; [exact Ht|]. intros v Hv Hne.
  pose proof (z_bounded_run ops initial z_bounded_initial) as Hb.
  unfold z_bounded in Hb. rewrite Forall_forall in Hb. specialize (Hb v Hv).
  assert (Hd : zIndex v <> zIndex w).
  { intros E. apply Hne.
    apply (NoDup_map_inj_in zIndex (windows (run ops initial))); auto.
    apply (z_distinct_run ops initial wf_initial z_bounded_initial).
    unfold z_distinct, initial; simpl. constructor. }
  lia.
Qed.

Lemma focused_window_on_top_witness :
  zIndex (mkWindowState "a" "Notes" 0 0 400 300 103 true false false) = 103
  /\ zIndex (mkWindowState "b" "Files" 10 20 640 480 102 false false true)
     < zIndex (mkWindowState "a" "Notes" 0 0 400 300 103 true false false).
Proof.
  destruct (focused_window_on_top
              [Open notes_a; Open notes_b; Maximize "b"; Focus "a"]
              (mkWindowState "a" "Notes" 0 0 400 300 103 true false false))
    as [Ht Hb]; [simpl; now left | reflexivity |].
  split; [exact Ht|].
  apply Hb; [simpl; right; now left | discriminate].
Defined.

(** ** Accounting along a run *)

Lemma topZIndex_step s op :
  topZIndex (step s op) = topZIndex s + (if allocates op then 1 else 0).
Proof. destruct op; simpl; lia. Qed.

(** X4. After any sequence of calls the counter is its starting value plus
    the number of openWindow, restoreWindow and focusWindow calls in the
    sequence, whether or not their target existed; from the initial state it
    is 100 plus that number. *)
Theorem counter_counts_allocations :
  forall (ops : list Op) (s : State),
    topZIndex (run ops s) = topZIndex s + Z.of_nat (allocations ops)
    /\ topZIndex (run ops initial) = 100 + Z.of_nat (allocations ops).
Proof.
  assert (H : forall ops s,
             topZIndex (run ops s) = topZIndex s + Z.of_nat (allocations ops)).
  { induction ops as [|op ops IH]; intros s; simpl.
    - unfold allocations; simpl. lia.
    - rewrite IH, topZIndex_step. unfold allocations. simpl.
      destruct (allocates op); simpl List.length; lia. }
  intros ops s. split; [apply H | apply (H ops initial)].
Qed.

Lemma ids_step s op :
  ids (windows (step s op))
  = match op with
    | Open window =>
        match find_window (Init.id window) (windows s) with
        | Some _ => ids (windows s)
        | None => (ids (windows s) ++ [Init.id window])%list
        end
    | Close wid => filter (fun i => negb (i =? wid)) (ids (windows s))
    | _ => ids (windows s)
    end.
Proof.
  destruct op; simpl;
    try (apply ids_sweep; reflexivity);
    try (apply ids_map; intros w; now destruct (id w =? wid)).
  - unfold openWindow; simpl.
    destruct (find_window (Init.id window) (windows s)) as [e|].
    + destruct (isMinimized e); apply ids_sweep; reflexivity.
    + unfold ids. rewrite map_app, map_map. reflexivity.
  - apply ids_filter.
Qed.

Lemma in_ids_step s op i :
  In i (ids (windows (step s op))) ->
  In i (ids (windows s)) \/ In i (opened_ids [op]).
Proof.
  rewrite ids_step. destruct op; simpl; auto.
  - destruct (find_window (Init.id window) (windows s)); auto.
    intros H. apply in_app_iff in H. simpl in H. tauto.
  - intros H. apply filter_In in H. tauto.
Qed.

Lemma opened_ids_cons op ops i :
  In i (opened_ids [op]) \/ In i (opened_ids ops) ->
  In i (opened_ids (op :: ops)).
Proof. destruct op; simpl; tauto. Qed.

(** X5. Only openWindow brings an id into the collection: an id present
    after a sequence of calls was present before it or is the id of an
    openWindow call of the sequence.  Hence an id that was closed stays out
    of the collection until it is opened again. *)
Theorem ids_come_from_open :
  forall (ops : list Op) (s : State) (i : string),
    In i (ids (windows (run ops s))) ->
    In i (ids (windows s)) \/ In i (opened_ids ops).
Proof.
  induction ops as [|op ops IH]; intros s i H; simpl in *; [now left|].
  destruct (IH _ _ H) as [H1|H1].
  - destruct (in_ids_step _ _ _ H1) as [H2|H2]; [now left|].
    right. apply opened_ids_cons. now left.
  - right. apply opened_ids_cons. now right.
Qed.

Lemma ids_come_from_open_witness :
  In "b" (ids (windows initial))
  \/ In "b" (opened_ids [Open notes_a; Focus "c"; Open notes_b; Close "a"]).
Proof.
  apply (ids_come_from_open
           [Open notes_a; Focus "c"; Open notes_b; Close "a"] initial "b").
  simpl. now left.
Defined.

(** ** Who holds the focus after a call *)

Lemma count_occ_present (l : list string) (i : string) :
  NoDup l -> In i l -> count_occ string_dec l i = 1%nat.
Proof.
  intros Hn Hi. pose proof (proj1 (NoDup_count_occ string_dec l) Hn i).
  pose proof (proj1 (count_occ_In string_dec l i) Hi). lia.
Qed.

Lemma find_window_present (wid : string) ws :
  In wid (ids ws) -> exists w, find_window wid ws = Some w.
Proof.
  intros H. destruct (find_window wid ws) as [w|] eqn:F; [now exists w|].
  apply find_window_None in F. contradiction.
Qed.

(** X6. In a state whose ids are unique, openWindow always leaves exactly
    one focused window; restoreWindow and focusWindow leave exactly one when
    a window carries the id, and none at all when no window carries it. *)
Theorem focus_after_raise :
  forall (s : State),
    unique_ids s ->
    (forall window : Init.t,
        focused_count (windows (openWindow window s)) = 1%nat)
    /\ (forall wid : string,
           In wid (ids (windows s)) ->
           focused_count (windows (restoreWindow wid s)) = 1%nat
           /\ focused_count (windows (focusWindow wid s)) = 1%nat)
    /\ (forall wid : string,
           ~ In wid (ids (windows s)) ->
           focused_count (windows (restoreWindow wid s)) = 0%nat
           /\ focused_count (windows (focusWindow wid s)) = 0%nat).
Proof.
  intros s Hu. split; [|split].
  - intros window. unfold openWindow; simpl.
    destruct (find_window (Init.id window) (windows s)) as [e|] eqn:F.
    + apply find_window_Some in F. destruct F as [Hin Hid].
      assert (Hp : In (Init.id window) (ids (windows s)))
        by (rewrite <- Hid; unfold ids; now apply in_map).
      destruct (isMinimized e); rewrite focused_count_sweep by reflexivity;
        now apply count_occ_present.
    + rewrite focused_count_app, focused_count_defocus. reflexivity.
  - intros wid Hp. unfold restoreWindow, focusWindow; simpl.
    rewrite !focused_count_sweep by reflexivity.
    split; now apply count_occ_present.
  - intros wid Hp. unfold restoreWindow, focusWindow; simpl.
    rewrite !focused_count_sweep by reflexivity.
    split; now apply count_occ_not_In.
Qed.

Lemma focus_after_raise_witness :
  focused_count
    (windows (focusWindow "a" (run [Open notes_a; Open notes_b] initial)))
  = 1%nat
  /\ focused_count
       (windows (focusWindow "c" (run [Open notes_a; Open notes_b] initial)))
     = 0%nat.
Proof.
  destruct (focus_after_raise (run [Open notes_a; Open notes_b] initial))
    as (_ & Hp & Ha).
  - unfold unique_ids. simpl. repeat constructor; simpl; intuition discriminate.
  - split.
    + apply Hp. simpl. now left.
    + apply Ha. simpl. intuition discriminate.
Defined.

Lemma focused_count_split (p : WindowState -> bool) ws :
  focused_count ws
  = (focused_count (filter p ws)
     + focused_count (filter (fun w => negb (p w)) ws))%nat.
Proof.
  unfold focused_count. induction ws as [|w ws IH]; simpl; [reflexivity|].
  destruct (p w); simpl; destruct (isFocused w); simpl; lia.
Qed.

Lemma focused_count_pos ws w :
  In w ws -> isFocused w = true -> (1 <= focused_count ws)%nat.
Proof.
  unfold focused_count. intros Hin Hf.
  assert (H : In w (filter isFocused ws)) by (apply filter_In; tauto).
  destruct (filter isFocused ws); [destruct H | simpl; lia].
Qed.

(** X7. closeWindow hands the focus to nobody: in a state with at most one
    focused window, closing the focused window leaves a collection in which
    no window is focused. *)
Theorem close_focused_leaves_no_focus :
  forall (s : State) (wid : string) (w : WindowState),
    (focused_count (windows s) <= 1)%nat ->
    In w (windows s) -> id w = wid -> isFocused w = true ->
    focused_count (windows (closeWindow wid s)) = 0%nat.
Proof.
  intros s wid w Hle Hin Hid Hf. unfold closeWindow; simpl.
  pose proof (focused_count_split (fun v => negb (String.eqb (id v) wid))
                (windows s)) as Hs.
  assert (Hp : (1 <= focused_count
                      (filter (fun v => negb (negb (String.eqb (id v) wid)))
                              (windows s)))%nat).
  { apply (focused_count_pos _ w); [|exact Hf].
    apply filter_In. split; [exact Hin|].
    rewrite negb_involutive. now apply String.eqb_eq. }
  lia.
Qed.

Lemma close_focused_leaves_no_focus_witness :
  focused_count
    (windows (closeWindow "b" (run [Open notes_a; Open notes_b] initial)))
  = 0%nat.
Proof.
  apply (close_focused_leaves_no_focus
           (run [Open notes_a; Open notes_b] initial) "b"
           (mkWindowState "b" "Files" 10 20 640 480 102 true false false)).
  - unfold focused_count. simpl. lia.
  - simpl. right. now left.
  - reflexivity.
  - reflexivity.
Defined.

(** ** Position and size updates *)

Ltac by_target wid :=
  let w := fresh "w" in
  let E := fresh "E" in
  intros w; destruct (id w =? wid) eqn:E; simpl; rewrite ?E; try reflexivity.

(** X8. Position and size updates compose as field writes: of two position
    updates (or two size updates) of the same id the later one wins, and a
    position update commutes with a size update, on the same id or on
    different ids. *)
Theorem updates_compose :
  forall (s : State) (wid wid' : string) (a1 b1 a2 b2 : Z),
    updateWindowPosition wid a2 b2 (updateWindowPosition wid a1 b1 s)
    = updateWindowPosition wid a2 b2 s
    /\ updateWindowSize wid a2 b2 (updateWindowSize wid a1 b1 s)
       = updateWindowSize wid a2 b2 s
    /\ updateWindowPosition wid a1 b1 (updateWindowSize wid' a2 b2 s)
       = updateWindowSize wid' a2 b2 (updateWindowPosition wid a1 b1 s).
Proof.
  intros s wid wid' a1 b1 a2 b2.
  unfold updateWindowPosition, updateWindowSize; simpl.
  repeat split; f_equal; rewrite !map_map; apply map_ext.
  - by_target wid.
  - by_target wid.
  - intros w. destruct (id w =? wid) eqn:E, (id w =? wid') eqn:E';
      simpl; rewrite ?E, ?E'; reflexivity.
Qed.

(** X9. updateWindowPosition and updateWindowSize keep, at every position of
    the collection, the id, title, [zIndex] and the three flags of the
    window, and keep the counter; the position update also keeps width and
    height and the size update keeps x and y.  Every window carrying the id
    ends with exactly the values passed, whatever they are: no bound or sign
    check is applied. *)
Theorem updates_frame :
  forall (s : State) (wid : string) (a b : Z),
    (topZIndex (updateWindowPosition wid a b s) = topZIndex s
     /\ map (fun w => (id w, title w, zIndex w, isFocused w, isMinimized w,
                       isMaximized w, width w, height w))
            (windows (updateWindowPosition wid a b s))
        = map (fun w => (id w, title w, zIndex w, isFocused w, isMinimized w,
                         isMaximized w, width w, height w))
              (windows s)
     /\ (forall w, In w (windows (updateWindowPosition wid a b s)) ->
                   id w = wid -> x w = a /\ y w = b))
    /\
    (topZIndex (updateWindowSize wid a b s) = topZIndex s
     /\ map (fun w => (id w, title w, zIndex w, isFocused w, isMinimized w,
                       isMaximized w, x w, y w))
            (windows (updateWindowSize wid a b s))
        = map (fun w => (id w, title w, zIndex w, isFocused w, isMinimized w,
                         isMaximized w, x w, y w))
              (windows s)
     /\ (forall w, In w (windows (updateWindowSize wid a b s)) ->
                   id w = wid -> width w = a /\ height w = b)).
Proof.
  intros s wid a b.
  unfold updateWindowPosition, updateWindowSize; simpl.
  split; (split; [reflexivity|]); split.
  - rewrite map_map. apply map_ext. by_target wid.
  - intros w' Hin Hid. apply in_map_iff in Hin. destruct Hin as [w [<- _]].
    destruct (String.eqb_spec (id w) wid) as [E|E]; [now split | contradiction].
  - rewrite map_map. apply map_ext. by_target wid.
  - intros w' Hin Hid. apply in_map_iff in Hin. destruct Hin as [w [<- _]].
    destruct (String.eqb_spec (id w) wid) as [E|E]; [now split | contradiction].
Qed.

Lemma updates_frame_witness :
  width (mkWindowState "a" "Notes" 0 0 (-5) 0 101 true false false) = -5
  /\ height (mkWindowState "a" "Notes" 0 0 (-5) 0 101 true false false) = 0.
Proof.
  destruct (updates_frame (run [Open notes_a] initial) "a" (-5) 0)
    as (_ & _ & _ & H).
  apply H; [simpl; now left | reflexivity].
Defined.

(** ** Minimize followed by a raise *)

Lemma find_window_sweep (wid : string) hit miss ws :
  (forall w, id (hit w) = id w) -> (forall w, id (miss w) = id w) ->
  find_window wid (map (fun w => if id w =? wid then hit w else miss w) ws)
  = option_map hit (find_window wid ws).
Proof.
  intros Hh Hm. unfold find_window.
  induction ws as [|w ws IH]; simpl; [reflexivity|].
  destruct (id w =? wid) eqn:E.
  - rewrite Hh, E. reflexivity.
  - rewrite Hm, E. exact IH.
Qed.

(** X10. A minimize is undone by the next raise of the same id:
    restoreWindow after minimizeWindow gives the state restoreWindow alone
    gives, and so does openWindow with the id of an existing window after
    minimizeWindow of that id.  When no window carrying the id is
    minimized, restoreWindow and focusWindow give the same state. *)
Theorem raise_after_minimize :
  forall (s : State) (wid : string),
    restoreWindow wid (minimizeWindow wid s) = restoreWindow wid s
    /\ (forall window : Init.t,
           Init.id window = wid -> In wid (ids (windows s)) ->
           openWindow window (minimizeWindow wid s) = restoreWindow wid s)
    /\ ((forall w, In w (windows s) -> id w = wid -> isMinimized w = false) ->
        restoreWindow wid s = focusWindow wid s).
Proof.
  intros s wid.
  assert (Hr : restoreWindow wid (minimizeWindow wid s) = restoreWindow wid s).
  { unfold restoreWindow, minimizeWindow; simpl. f_equal.
    rewrite map_map. apply map_ext. by_target wid. }
  split; [exact Hr|]. split.
  - intros window Hid Hp. rewrite <- Hr. subst wid.
    destruct (find_window_present _ _ Hp) as [e F].
    unfold openWindow.
    replace (find_window (Init.id window)
               (windows (minimizeWindow (Init.id window) s)))
      with (Some (set_isFocused false (set_isMinimized true e))).
    + reflexivity.
    + unfold minimizeWindow; simpl.
      rewrite (find_window_sweep (Init.id window)
                 (fun w => set_isFocused false (set_isMinimized true w))
                 (fun w => w)) by reflexivity.
      now rewrite F.
  - intros H. unfold restoreWindow, focusWindow. f_equal.
    apply map_ext_in. intros w Hin.
    destruct (String.eqb_spec (id w) wid) as [E|E]; [|reflexivity].
    specialize (H w Hin E). destruct w; simpl in *. subst. reflexivity.
Qed.

Lemma raise_after_minimize_witness :
  openWindow notes_a
    (minimizeWindow "a" (run [Open notes_a; Open notes_b] initial))
  = restoreWindow "a" (run [Open notes_a; Open notes_b] initial)
  /\ restoreWindow "b" (run [Open notes_a; Open notes_b] initial)
     = focusWindow "b" (run [Open notes_a; Open notes_b] initial).
Proof.
  destruct (raise_after_minimize
              (run [Open notes_a; Open notes_b] initial) "a")
    as (_ & Ho & _).
  destruct (raise_after_minimize
              (run [Open notes_a; Open notes_b] initial) "b")
    as (_ & _ & Hf).
  split.
  - apply Ho; [reflexivity | simpl; now left].
  - apply Hf. simpl. intros w [<-|[<-|[]]]; reflexivity.
Defined.

(** ** Telemetry of the provider *)

Lemma length_closeWindow_present s wid :
  unique_ids s -> In wid (ids (windows s)) ->
  Z.of_nat (List.length (windows (closeWindow wid s)))
  = Z.of_nat (List.length (windows s)) - 1.
Proof.
  intros Hu Hp. unfold closeWindow; simpl.
  pose proof (length_filter_ids wid (windows s)) as Hl.
  rewrite (count_occ_present _ _ Hu Hp) in Hl. lia.
Qed.

Lemma length_openWindow_fresh window s :
  find_window (Init.id window) (windows s) = None ->
  Z.of_nat (List.length (windows (openWindow window s)))
  = Z.of_nat (List.length (windows s)) + 1.
Proof.
  intros F. rewrite (openWindow_fresh window s F).
  rewrite length_app, length_map. simpl. lia.
Qed.

Lemma length_step_same s op :
  match op with
  | Open window => find_window (Init.id window) (windows s) <> None
  | Close wid => find_window wid (windows s) = None
  | _ => True
  end ->
  List.length (windows (step s op)) = List.length (windows s).
Proof.
  destruct op; simpl; intros H; try apply length_map.
  - unfold openWindow; simpl.
    destruct (find_window (Init.id window) (windows s)) as [e|];
      [|contradiction].
    destruct (isMinimized e); apply length_map.
  - now rewrite filter_absent.
Qed.

Lemma find_window_In (wid : string) ws w :
  find_window wid ws = Some w -> In wid (ids ws).
Proof.
  intros F. apply find_window_Some in F. destruct F as [Hin <-].
  unfold ids. now apply in_map.
Qed.

(** X11. In a state whose ids are unique, every [window.active_count]
    gauge that a call sends carries the size of the collection as it is
    after that call. *)
Theorem active_count_gauge_is_size :
  forall (s : State) (op : Op) (v : Z) (tags : list (string * Value)),
    unique_ids s ->
    In (MetricsGauge "window.active_count" v tags) (telemetry s op) ->
    v = Z.of_nat (List.length (windows (step s op))).
Proof.
  intros s op v tags Hu Hin. destruct op; cbn [telemetry step] in *.
  - unfold openWindow_telemetry in Hin.
    destruct (find_window (Init.id window) (windows s)) as [e|] eqn:F.
    + destruct (isMinimized e); simpl in Hin;
        repeat (destruct Hin as [Hin|Hin]; [discriminate Hin|]);
        destruct Hin.
    + rewrite (length_openWindow_fresh _ _ F). simpl in Hin.
      repeat (destruct Hin as [Hin|Hin];
              [first [discriminate Hin | now inversion Hin]|]).
      destruct Hin.
  - unfold closeWindow_telemetry in Hin.
    destruct (find_window wid (windows s)) as [e|] eqn:F; [|destruct Hin].
    rewrite (length_closeWindow_present _ _ Hu (find_window_In _ _ _ F)).
    simpl in Hin.
    repeat (destruct Hin as [Hin|Hin];
            [first [discriminate Hin | now inversion Hin]|]).
    destruct Hin.
  - unfold minimizeWindow_telemetry in Hin.
    destruct (find_window wid (windows s)); simpl in Hin;
      repeat (destruct Hin as [Hin|Hin]; [discriminate Hin|]); destruct Hin.
  - unfold maximizeWindow_telemetry in Hin.
    destruct (find_window wid (windows s)); simpl in Hin;
      repeat (destruct Hin as [Hin|Hin]; [discriminate Hin|]); destruct Hin.
  - destruct Hin.
  - destruct Hin.
  - unfold updateWindowPosition_telemetry in Hin.
    destruct (find_window wid (windows s)); simpl in Hin;
      repeat (destruct Hin as [Hin|Hin]; [discriminate Hin|]); destruct Hin.
  - unfold updateWindowSize_telemetry in Hin.
    destruct (find_window wid (windows s)); simpl in Hin;
      repeat (destruct Hin as [Hin|Hin]; [discriminate Hin|]); destruct Hin.
Qed.

Lemma active_count_gauge_is_size_witness :
  1 = Z.of_nat (List.length
                  (windows (step (run [Open notes_a; Open notes_b] initial)
                                 (Close "a")))).
Proof.
  apply (active_count_gauge_is_size
           (run [Open notes_a; Open notes_b] initial) (Close "a") 1 []).
  - unfold unique_ids. simpl. repeat constructor; simpl; intuition discriminate.
  - simpl. right. right. now left.
Defined.

(** X12. Which calls are silent: restoreWindow and focusWindow never send
    telemetry, although they change the state; openWindow always sends some;
    closeWindow, minimizeWindow, maximizeWindow, updateWindowPosition and
    updateWindowSize send some exactly when a window carries the id. *)
Theorem telemetry_silence :
  forall (s : State),
    (forall wid, telemetry s (Restore wid) = []
                 /\ telemetry s (Focus wid) = [])
    /\ (forall window, telemetry s (Open window) <> [])
    /\ (forall wid a b,
           (telemetry s (Close wid) <> [] <-> In wid (ids (windows s)))
           /\ (telemetry s (Minimize wid) <> [] <-> In wid (ids (windows s)))
           /\ (telemetry s (Maximize wid) <> [] <-> In wid (ids (windows s)))
           /\ (telemetry s (UpdateWindowPosition wid a b) <> []
               <-> In wid (ids (windows s)))
           /\ (telemetry s (UpdateWindowSize wid a b) <> []
               <-> In wid (ids (windows s)))).
Proof.
  intros s. split; [|split].
  - intros wid. split; reflexivity.
  - intros window. simpl. unfold openWindow_telemetry.
    destruct (find_window (Init.id window) (windows s)) as [e|];
      [destruct (isMinimized e)|]; discriminate.
  - intros wid a b. simpl.
    unfold closeWindow_telemetry, minimizeWindow_telemetry,
      maximizeWindow_telemetry, updateWindowPosition_telemetry,
      updateWindowSize_telemetry.
    destruct (find_window wid (windows s)) as [e|] eqn:F.
    + pose proof (find_window_In _ _ _ F) as Hp.
      repeat split; auto; discriminate.
    + apply find_window_None in F.
      repeat split; intros H; try contradiction; exfalso; now apply H.
Qed.

Lemma count_increments_app (name : string) t1 t2 :
  count_increments name (t1 ++ t2)
  = (count_increments name t1 + count_increments name t2)%nat.
Proof. unfold count_increments. now rewrite filter_app, length_app. Qed.

Lemma last_gauge_app (name : string) (d : Z) t1 t2 :
  last_gauge name d (t1 ++ t2) = last_gauge name (last_gauge name d t1) t2.
Proof. unfold last_gauge. apply fold_left_app. Qed.

(** What one call does to the size of the collection, read off its
    telemetry. *)
Lemma size_step_telemetry s op :
  unique_ids s ->
  Z.of_nat (List.length (windows (step s op)))
  = Z.of_nat (List.length (windows s))
    + Z.of_nat (count_increments "window.open" (telemetry s op))
    - Z.of_nat (count_increments "window.close" (telemetry s op))
  /\ last_gauge "window.active_count"
       (Z.of_nat (List.length (windows s))) (telemetry s op)
     = Z.of_nat (List.length (windows (step s op))).
Proof.
  intros Hu. destruct op; cbn [telemetry].
  - unfold openWindow_telemetry.
    destruct (find_window (Init.id window) (windows s)) as [e|] eqn:F.
    + rewrite length_step_same by (simpl; congruence).
      destruct (isMinimized e); split; reflexivity || (cbn; lia).
    + cbn [step]. rewrite (length_openWindow_fresh _ _ F).
      split; [cbn; lia | reflexivity].
  - unfold closeWindow_telemetry.
    destruct (find_window wid (windows s)) as [e|] eqn:F.
    + cbn [step].
      rewrite (length_closeWindow_present _ _ Hu (find_window_In _ _ _ F)).
      split; [cbn; lia | reflexivity].
    + rewrite length_step_same by exact F. split; [cbn; lia | reflexivity].
  - rewrite length_step_same by exact I. unfold minimizeWindow_telemetry.
    destruct (find_window wid (windows s)); split; reflexivity || (cbn; lia).
  - rewrite length_step_same by exact I. unfold maximizeWindow_telemetry.
    destruct (find_window wid (windows s)) as [e|];
      [destruct (isMaximized e)|]; split; reflexivity || (cbn; lia).
  - rewrite length_step_same by exact I. split; [cbn; lia | reflexivity].
  - rewrite length_step_same by exact I. split; [cbn; lia | reflexivity].
  - rewrite length_step_same by exact I.
    unfold updateWindowPosition_telemetry.
    destruct (find_window wid (windows s)); split; reflexivity || (cbn; lia).
  - rewrite length_step_same by exact I. unfold updateWindowSize_telemetry.
    destruct (find_window wid (windows s)); split; reflexivity || (cbn; lia).
Qed.

Lemma size_run_telemetry ops :
  forall s, wf s ->
    Z.of_nat (List.length (windows (run ops s)))
    = Z.of_nat (List.length (windows s))
      + Z.of_nat (count_increments "window.open" (run_telemetry ops s))
      - Z.of_nat (count_increments "window.close" (run_telemetry ops s))
    /\ last_gauge "window.active_count"
         (Z.of_nat (List.length (windows s))) (run_telemetry ops s)
       = Z.of_nat (List.length (windows (run ops s))).
Proof.
  induction ops as [|op ops IH]; intros s Hwf; cbn [run_telemetry].
  - simpl. split; [unfold count_increments; simpl; lia | reflexivity].
  - destruct (size_step_telemetry s op (proj1 Hwf)) as [Hs Hg].
    destruct (IH (step s op) (wf_step s op Hwf)) as [IHs IHg].
    change (run (op :: ops) s) with (run ops (step s op)).
    rewrite !count_increments_app, last_gauge_app, Hg. split; [lia | exact IHg].
Qed.

(** X13. Along every sequence of calls from the initial state, the number
    of [window.open] increments sent minus the number of [window.close]
    increments sent is the size of the collection at the end. *)
Theorem open_minus_close_is_size :
  forall ops : list Op,
    Z.of_nat (List.length (windows (run ops initial)))
    = Z.of_nat (count_increments "window.open" (run_telemetry ops initial))
      - Z.of_nat (count_increments "window.close" (run_telemetry ops initial)).
Proof.
  intros ops. destruct (size_run_telemetry ops initial wf_initial) as [H _].
  rewrite H. simpl. lia.
Qed.

(** X14. Along every sequence of calls from the initial state, the last
    [window.active_count] gauge sent is the size of the collection at the
    end (which is 0 when no such gauge was sent): the gauge is never
    stale. *)
Theorem active_count_gauge_never_stale :
  forall ops : list Op,
    last_gauge "window.active_count" 0 (run_telemetry ops initial)
    = Z.of_nat (List.length (windows (run ops initial))).
Proof.
  intros ops. destruct (size_run_telemetry ops initial wf_initial) as [_ H].
  exact H.
Qed.

(** X15. The event maximizeWindow sends names the value the flag ends
    with: for a window found by the id, the increment is [window.maximize]
    when that window ends maximized and [window.restore] when it ends not
    maximized. *)
Theorem maximize_event_names_result :
  forall (s : State) (wid : string) (w : WindowState),
    find_window wid (windows s) = Some w ->
    exists w',
      find_window wid (windows (maximizeWindow wid s)) = Some w'
      /\ (count_increments "window.maximize" (telemetry s (Maximize wid))
          = if isMaximized w' then 1%nat else 0%nat)
      /\ (count_increments "window.restore" (telemetry s (Maximize wid))
          = if isMaximized w' then 0%nat else 1%nat).
Proof.
  intros s wid w F.
  exists (set_isMaximized (negb (isMaximized w)) w). split.
  - unfold maximizeWindow; simpl.
    rewrite (find_window_sweep wid
               (fun v => set_isMaximized (negb (isMaximized v)) v)
               (fun v => v)) by reflexivity.
    now rewrite F.
  - cbn [telemetry]. unfold maximizeWindow_telemetry. rewrite F.
    destruct (isMaximized w); split; reflexivity.
Qed.

Lemma maximize_event_names_result_witness :
  exists w',
    find_window "a" (windows (maximizeWindow "a" (run [Open notes_a] initial)))
    = Some w'
    /\ (count_increments "window.maximize"
          (telemetry (run [Open notes_a] initial) (Maximize "a"))
        = if isMaximized w' then 1%nat else 0%nat)
    /\ (count_increments "window.restore"
          (telemetry (run [Open notes_a] initial) (Maximize "a"))
        = if isMaximized w' then 0%nat else 1%nat).
Proof.
  apply (maximize_event_names_result (run [Open notes_a] initial) "a"
           (mkWindowState "a" "Notes" 0 0 400 300 101 true false false)).
  reflexivity.
Defined.

(** * Properties of the chat route *)

(** ** Validation and prompt *)

Lemma string_append_assoc (s1 s2 s3 : string) :
  (s1 ++ s2) ++ s3 = s1 ++ (s2 ++ s3).
Proof. induction s1 as [|c s1 IH]; simpl; [reflexivity | now rewrite IH]. Qed.

Lemma pop_app_last {A : Type} (l : list A) (a : A) :
  Chat.pop (l ++ [a]) = Some a.
Proof.
  induction l as [|b l IH]; simpl; [reflexivity|].
  destruct (l ++ [a])%list eqn:E; [now destruct l | exact IH].
Qed.

Lemma pop_None {A : Type} (l : list A) : Chat.pop l = None <-> l = [].
Proof.
  split; [|now intros ->].
  destruct l as [|a l] using rev_ind; [reflexivity|].
  rewrite pop_app_last. discriminate.
Qed.

Lemma filter_nil_iff {A : Type} (p : A -> bool) (l : list A) :
  filter p l = [] <-> forall a, In a l -> p a = false.
Proof.
  induction l as [|b l IH]; simpl; [tauto|].
  destruct (p b) eqn:E.
  - split; [discriminate|]. intros H. specialize (H b (or_introl eq_refl)).
    congruence.
  - rewrite IH. split; [intros H a [<-|Ha]; auto | auto].
Qed.

Lemma is_user_role (m : Chat.MessageInput) :
  Chat.is_user m = true <-> Chat.role m = Chat.user.
Proof. unfold Chat.is_user. destruct (Chat.role m); split; congruence. Qed.

Lemma pop_filter_Some {A : Type} (p : A -> bool) (l : list A) (m : A) :
  Chat.pop (filter p l) = Some m <->
  exists before after,
    l = (before ++ m :: after)%list
    /\ p m = true /\ (forall a, In a after -> p a = false).
Proof.
  split.
  - induction l as [|a l IH] using rev_ind; [discriminate|].
    rewrite filter_app. simpl. destruct (p a) eqn:E.
    + rewrite pop_app_last. intros [= <-].
      exists l, []. repeat split; [exact E | intros b []].
    + rewrite app_nil_r. intros H.
      destruct (IH H) as (before & after & -> & Hm & Ha).
      exists before, (after ++ [a])%list. rewrite <- app_assoc. simpl.
      repeat split; [exact Hm|].
      intros b Hb. apply in_app_iff in Hb.
      destruct Hb as [Hb|[<-|[]]]; [now apply Ha | exact E].
  - intros (before & after & -> & Hm & Ha).
    rewrite filter_app. simpl. rewrite Hm.
    replace (filter p after) with (@nil A);
      [apply pop_app_last | symmetry; now apply filter_nil_iff].
Qed.

Lemma raw_is_user_role (m : Chat.RawMessage) :
  Chat.raw_is_user m = true <-> Chat.raw_role m = Some "user".
Proof.
  unfold Chat.raw_is_user. destruct (Chat.raw_role m) as [r|].
  - rewrite String.eqb_eq. split; congruence.
  - split; discriminate.
Qed.

Lemma raw_of_typed (messages : list Chat.MessageInput) :
  Chat.POST_raw (Some (map Chat.raw_of messages))
  = Chat.POST (Chat.Parsed (Some messages)).
Proof.
  assert (Hu : forall m, Chat.raw_is_user (Chat.raw_of m) = Chat.is_user m).
  { intros m. unfold Chat.raw_is_user, Chat.is_user, Chat.raw_of. simpl.
    now destruct (Chat.role m). }
  assert (Hl : forall m, Chat.raw_line (Chat.raw_of m) = Chat.line m).
  { intros m. unfold Chat.raw_line, Chat.line. now rewrite Hu. }
  assert (Hf : filter Chat.raw_is_user (map Chat.raw_of messages)
               = map Chat.raw_of (filter Chat.is_user messages)).
  { induction messages as [|a l IH]; simpl; [reflexivity|].
    rewrite Hu. destruct (Chat.is_user a); simpl; now rewrite IH. }
  assert (Hp : forall l : list Chat.MessageInput,
             Chat.pop (map Chat.raw_of l) = option_map Chat.raw_of (Chat.pop l)).
  { induction l as [|a [|b l] IH]; try reflexivity. exact IH. }
  assert (Hr : forall l : list Chat.MessageInput,
             removelast (map Chat.raw_of l) = map Chat.raw_of (removelast l)).
  { induction l as [|a [|b l] IH]; try reflexivity.
    change (Chat.raw_of a :: removelast (map Chat.raw_of (b :: l))
            = Chat.raw_of a :: map Chat.raw_of (removelast (b :: l))).
    now rewrite IH. }
  unfold Chat.POST_raw, Chat.POST, Chat.lastUserMessage.
  rewrite Hf, Hp.
  destruct (Chat.pop (filter Chat.is_user messages)) as [m|]; [|reflexivity].
  simpl. unfold Chat.fullPrompt, Chat.raw_conversationContext,
    Chat.conversationContext.
  rewrite Hr, map_map. now rewrite (map_ext _ _ Hl).
Qed.

Lemma raw_not_user (a : Chat.RawMessage) :
  Chat.raw_is_user a = false <-> Chat.raw_role a <> Some "user".
Proof.
  rewrite <- raw_is_user_role.
  destruct (Chat.raw_is_user a); split; congruence.
Qed.

Lemma raw_last_user (messages : list Chat.RawMessage) (m : Chat.RawMessage) :
  Chat.pop (filter Chat.raw_is_user messages) = Some m <->
  exists before after,
    messages = (before ++ m :: after)%list
    /\ Chat.raw_role m = Some "user"
    /\ (forall a, In a after -> Chat.raw_role a <> Some "user").
Proof.
  rewrite pop_filter_Some. split.
  - intros (b & a & E & Hm & Ha). exists b, a.
    repeat split; [exact E | now apply raw_is_user_role |].
    intros x Hx. now apply raw_not_user, Ha.
  - intros (b & a & E & Hm & Ha). exists b, a.
    repeat split; [exact E | now apply raw_is_user_role |].
    intros x Hx. now apply raw_not_user, Ha.
Qed.

(** X16. On a [messages] array of message objects (role any string or
    missing, content a string, [null] or missing) the handler answers 400
    "No user message found" exactly when no element has role ["user"]; it
    answers 500 exactly when the last element with role ["user"] has a
    [null] or missing content; and it answers with the event stream exactly
    when the last element with role ["user"] has a string content.  On
    messages of the declared type the answer is that of [POST], which
    streams exactly when some message has role [user]. *)
Theorem chat_accepts_iff_user_message :
  forall messages : list Chat.RawMessage,
    (Chat.POST_raw (Some messages)
     = Chat.JsonError 400 "No user message found"
     <-> forall m, In m messages -> Chat.raw_role m <> Some "user")
    /\ (Chat.POST_raw (Some messages)
        = Chat.JsonError 500
            "Failed to process chat request. Check server logs for details."
        <-> exists before m after,
             messages = (before ++ m :: after)%list
             /\ Chat.raw_role m = Some "user"
             /\ (forall a, In a after -> Chat.raw_role a <> Some "user")
             /\ (Chat.raw_content m = Chat.content_missing
                 \/ Chat.raw_content m = Chat.content_null))
    /\ ((exists prompt,
            Chat.POST_raw (Some messages) = Chat.EventStream prompt)
        <-> exists before m after text,
             messages = (before ++ m :: after)%list
             /\ Chat.raw_role m = Some "user"
             /\ (forall a, In a after -> Chat.raw_role a <> Some "user")
             /\ Chat.raw_content m = Chat.content_text text)
    /\ (forall typed : list Chat.MessageInput,
           Chat.POST_raw (Some (map Chat.raw_of typed))
           = Chat.POST (Chat.Parsed (Some typed))
           /\ ((exists m, In m typed /\ Chat.role m = Chat.user)
               <-> exists prompt,
                    Chat.POST (Chat.Parsed (Some typed))
                    = Chat.EventStream prompt)).
Proof.
  intros messages.
  pose proof raw_not_user as Hnot.
  split; [|split; [|split]].
  - unfold Chat.POST_raw.
    destruct (Chat.pop (filter Chat.raw_is_user messages)) as [m|] eqn:P.
    + split.
      * destruct (Chat.raw_content m); discriminate.
      * intros H. exfalso.
        apply (proj1 (raw_last_user messages m)) in P. destruct P as (b & a & -> & Hm & _).
        apply (H m); [apply in_app_iff; right; now left | exact Hm].
    + split; [|reflexivity]. intros _ m Hin.
      apply pop_None in P. apply Hnot.
      exact (proj1 (filter_nil_iff _ _) P m Hin).
  - unfold Chat.POST_raw.
    destruct (Chat.pop (filter Chat.raw_is_user messages)) as [m|] eqn:P.
    + split.
      * intros H. apply (proj1 (raw_last_user messages m)) in P.
        destruct P as (b & a & E & Hm & Ha). exists b, m, a.
        repeat split; auto.
        destruct (Chat.raw_content m); auto; discriminate.
      * intros (b & m' & a & E & Hm & Ha & Hc).
        assert (P' : Chat.pop (filter Chat.raw_is_user messages) = Some m')
          by (apply raw_last_user; exists b, a; auto).
        rewrite P in P'. injection P' as ->.
        destruct Hc as [-> | ->]; reflexivity.
    + split; [discriminate|].
      intros (b & m' & a & E & Hm & Ha & _).
      assert (P' : Chat.pop (filter Chat.raw_is_user messages) = Some m')
        by (apply raw_last_user; exists b, a; auto).
      congruence.
  - unfold Chat.POST_raw.
    destruct (Chat.pop (filter Chat.raw_is_user messages)) as [m|] eqn:P.
    + split.
      * intros [prompt H]. apply (proj1 (raw_last_user messages m)) in P.
        destruct P as (b & a & E & Hm & Ha).
        destruct (Chat.raw_content m) as [| |text] eqn:C; try discriminate.
        exists b, m, a, text. auto.
      * intros (b & m' & a & text & E & Hm & Ha & Hc).
        assert (P' : Chat.pop (filter Chat.raw_is_user messages) = Some m')
          by (apply raw_last_user; exists b, a; auto).
        rewrite P in P'. injection P' as ->.
        rewrite Hc. now eexists.
    + split; [intros [prompt H]; discriminate|].
      intros (b & m' & a & text & E & Hm & Ha & _).
      assert (P' : Chat.pop (filter Chat.raw_is_user messages) = Some m')
        by (apply raw_last_user; exists b, a; auto).
      congruence.
  - intros typed. split; [apply raw_of_typed|].
    unfold Chat.POST, Chat.lastUserMessage.
    destruct (Chat.pop (filter Chat.is_user typed)) as [m|] eqn:P.
    + split; [intros _; now eexists|]. intros _.
      apply pop_filter_Some in P. destruct P as (b & a & -> & Hm & _).
      exists m. split; [apply in_app_iff; right; now left|].
      now apply is_user_role.
    + split; [|intros [prompt H]; discriminate].
      intros [u [Hu Hr]]. apply pop_None in P.
      pose proof (proj1 (filter_nil_iff _ _) P u Hu) as Hf.
      apply is_user_role in Hr. congruence.
Qed.

(** X17. The prompt is driven by the last message with role [user],
    wherever it stands in the array: when only assistant messages follow
    it, it is the one selected and the prompt ends with its ["User: "]
    line. *)
Theorem chat_prompt_ends_with_last_user_message :
  forall (before after : list Chat.MessageInput) (m : Chat.MessageInput),
    Chat.role m = Chat.user ->
    (forall a, In a after -> Chat.role a = Chat.assistant) ->
    Chat.lastUserMessage (before ++ m :: after) = Some m
    /\ exists head,
        Chat.POST (Chat.Parsed (Some (before ++ m :: after)%list))
        = Chat.EventStream (head ++ "User: " ++ Chat.content m).
Proof.
  intros before after m Hm Ha.
  assert (L : Chat.lastUserMessage (before ++ m :: after) = Some m).
  { unfold Chat.lastUserMessage. rewrite filter_app. simpl.
    rewrite (proj2 (is_user_role m) Hm).
    replace (filter Chat.is_user after) with (@nil Chat.MessageInput).
    - apply pop_app_last.
    - symmetry. apply filter_nil_iff. intros a Hin.
      unfold Chat.is_user. now rewrite (Ha a Hin). }
  split; [exact L|].
  unfold Chat.POST. rewrite L. unfold Chat.fullPrompt.
  destruct (Chat.conversationContext (before ++ m :: after)) as [|c ctx].
  - exists (Chat.SYSTEM_PROMPT ++ Chat.nl ++ Chat.nl).
    now rewrite !string_append_assoc.
  - exists (Chat.SYSTEM_PROMPT ++ Chat.nl ++ Chat.nl
            ++ "Previous conversation:" ++ Chat.nl
            ++ String c ctx ++ Chat.nl ++ Chat.nl).
    now rewrite !string_append_assoc.
Qed.

Lemma chat_prompt_ends_with_last_user_message_witness :
  Chat.lastUserMessage
    ([Chat.mkMessage Chat.user "first"]
       ++ Chat.mkMessage Chat.user "second"
       :: [Chat.mkMessage Chat.assistant "reply"])
  = Some (Chat.mkMessage Chat.user "second").
Proof.
  apply (chat_prompt_ends_with_last_user_message
           [Chat.mkMessage Chat.user "first"]
           [Chat.mkMessage Chat.assistant "reply"]
           (Chat.mkMessage Chat.user "second")).
  - reflexivity.
  - intros a [<-|[]]. reflexivity.
Defined.

Lemma line_not_empty (m : Chat.MessageInput) : Chat.line m <> "".
Proof. unfold Chat.line. destruct (Chat.is_user m); discriminate. Qed.

Lemma concat_lines_empty (sep : string) (l : list Chat.MessageInput) :
  String.concat sep (map Chat.line l) = "" <-> l = [].
Proof.
  split; [|now intros ->].
  destruct l as [|a l]; [reflexivity|]. simpl.
  pose proof (line_not_empty a) as Ha.
  destruct (Chat.line a) as [|c r] eqn:E; [contradiction|].
  destruct (map Chat.line l); simpl; discriminate.
Qed.

Lemma removelast_nil_iff {A : Type} (l : list A) :
  removelast l = [] <-> (List.length l <= 1)%nat.
Proof.
  destruct l as [|a [|b l]]; simpl; split; intros H;
    try reflexivity; try lia; discriminate.
Qed.

(** X18. The prompt has its "Previous conversation:" part exactly when the
    array holds more than one message (the condition logged as
    [has_conversation_context]): with one message the prompt is the system
    prompt followed by the ["User: "] line alone. *)
Theorem chat_context_iff_several_messages :
  forall (messages : list Chat.MessageInput) (m : Chat.MessageInput),
    Chat.lastUserMessage messages = Some m ->
    (Chat.conversationContext messages = ""
     <-> (List.length messages <= 1)%nat)
    /\ Chat.POST (Chat.Parsed (Some messages))
       = Chat.EventStream
           (if (List.length messages <=? 1)%nat
            then Chat.SYSTEM_PROMPT ++ Chat.nl ++ Chat.nl
                 ++ "User: " ++ Chat.content m
            else Chat.SYSTEM_PROMPT ++ Chat.nl ++ Chat.nl
                 ++ "Previous conversation:" ++ Chat.nl
                 ++ Chat.conversationContext messages
                 ++ Chat.nl ++ Chat.nl ++ "User: " ++ Chat.content m).
Proof.
  intros messages m L.
  assert (H : Chat.conversationContext messages = ""
              <-> (List.length messages <= 1)%nat).
  { unfold Chat.conversationContext.
    rewrite concat_lines_empty. apply removelast_nil_iff. }
  split; [exact H|].
  unfold Chat.POST. rewrite L. unfold Chat.fullPrompt. f_equal.
  destruct (Nat.leb_spec (List.length messages) 1) as [Hl|Hl].
  - now rewrite (proj2 H Hl).
  - assert (Hne : Chat.conversationContext messages <> "")
      by (intros E; apply H in E; lia).
    destruct (Chat.conversationContext messages) as [|c ctx];
      [contradiction | reflexivity].
Qed.

Lemma chat_context_iff_several_messages_witness :
  Chat.POST (Chat.Parsed (Some [Chat.mkMessage Chat.user "hello"]))
  = Chat.EventStream
      (Chat.SYSTEM_PROMPT ++ Chat.nl ++ Chat.nl ++ "User: " ++ "hello").
Proof.
  destruct (chat_context_iff_several_messages
              [Chat.mkMessage Chat.user "hello"]
              (Chat.mkMessage Chat.user "hello") eq_refl) as [_ H].
  exact H.
Defined.

(** X19. The last element of the array is left out of the conversation
    context whatever its role: when it is an assistant message, its content
    has no effect on the answer. *)
Theorem chat_trailing_assistant_ignored :
  forall (messages : list Chat.MessageInput) (c1 c2 : string),
    Chat.POST (Chat.Parsed
                 (Some (messages ++ [Chat.mkMessage Chat.assistant c1])%list))
    = Chat.POST (Chat.Parsed
                   (Some (messages ++ [Chat.mkMessage Chat.assistant c2])%list))
    /\ Chat.conversationContext
         (messages ++ [Chat.mkMessage Chat.assistant c1])
       = String.concat (Chat.nl ++ Chat.nl) (map Chat.line messages).
Proof.
  intros messages c1 c2.
  assert (C : forall c, Chat.conversationContext
                          (messages ++ [Chat.mkMessage Chat.assistant c])
                        = String.concat (Chat.nl ++ Chat.nl)
                                        (map Chat.line messages)).
  { intros c. unfold Chat.conversationContext. now rewrite removelast_last. }
  assert (L : forall c, Chat.lastUserMessage
                          (messages ++ [Chat.mkMessage Chat.assistant c])
                        = Chat.lastUserMessage messages).
  { intros c. unfold Chat.lastUserMessage. rewrite filter_app. simpl.
    now rewrite app_nil_r. }
  split; [|apply C].
  unfold Chat.POST, Chat.fullPrompt. now rewrite !L, !C.
Qed.

(** ** The event stream *)

Lemma on_blocks_enqueued (content : list Chat.Block) :
  forall st : Chat.Stream,
    let st' :=
      fold_left
        (fun st block =>
           match block with
           | Chat.tool_use name =>
               Chat.enqueue (Chat.data (Chat.send_tool_start name))
                            (Chat.count_tool st)
           | Chat.other_block => st
           end) content st in
    Chat.enqueued st'
    = (Chat.enqueued st
       ++ flat_map (fun block =>
                      match block with
                      | Chat.tool_use name =>
                          [Chat.data (Chat.send_tool_start name)]
                      | Chat.other_block => []
                      end) content)%list
    /\ Chat.closed st' = Chat.closed st
    /\ Chat.textChunkCount st' = Chat.textChunkCount st
    /\ Chat.toolUseCount st'
       = (Chat.toolUseCount st
          + List.length (filter (fun block =>
                                   match block with
                                   | Chat.tool_use _ => true
                                   | Chat.other_block => false
                                   end) content))%nat.
Proof.
  induction content as [|b content IH]; intros st; simpl.
  - rewrite app_nil_r. repeat split; lia.
  - destruct b as [name|]; [|apply IH].
    destruct (IH (Chat.enqueue (Chat.data (Chat.send_tool_start name))
                               (Chat.count_tool st)))
      as (He & Hc & Ht & Hu).
    simpl in *. rewrite He, Hc, Ht, Hu, <- app_assoc. simpl.
    repeat split; lia.
Qed.

Lemma block_chunks_counts (content : list Chat.Block) :
  filter Chat.is_text_chunk
    (flat_map (fun block =>
                 match block with
                 | Chat.tool_use name =>
                     [Chat.data (Chat.send_tool_start name)]
                 | Chat.other_block => []
                 end) content) = []
  /\ List.length
       (filter Chat.is_tool_start_chunk
          (flat_map (fun block =>
                       match block with
                       | Chat.tool_use name =>
                           [Chat.data (Chat.send_tool_start name)]
                       | Chat.other_block => []
                       end) content))
     = List.length (filter (fun block =>
                              match block with
                              | Chat.tool_use _ => true
                              | Chat.other_block => false
                              end) content).
Proof.
  induction content as [|[n|] content [IH1 IH2]]; simpl; auto.
Qed.

(** The stream state keeps its counters equal to the numbers of chunks of
    the two kinds. *)
Lemma counters_on_message (m : Chat.SDKMessage) (st : Chat.Stream) :
  Chat.enqueued (Chat.on_message m st)
  = (Chat.enqueued st ++ Chat.chunks_of m)%list
  /\ Chat.closed (Chat.on_message m st) = Chat.closed st
  /\ Chat.textChunkCount (Chat.on_message m st)
     = (Chat.textChunkCount st
        + List.length (filter Chat.is_text_chunk (Chat.chunks_of m)))%nat
  /\ Chat.toolUseCount (Chat.on_message m st)
     = (Chat.toolUseCount st
        + List.length (filter Chat.is_tool_start_chunk (Chat.chunks_of m)))%nat.
Proof.
  unfold Chat.chunks_of.
  destruct m as [[[[text|]|]|]|[content|]|name elapsed|subtype|];
    try (simpl; rewrite ?app_nil_r; repeat split; lia).
  - unfold Chat.on_message.
    destruct (on_blocks_enqueued content st) as (He & Hc & Ht & Hu).
    destruct (on_blocks_enqueued content Chat.empty_stream)
      as (He0 & _ & _ & _).
    destruct (block_chunks_counts content) as [T U].
    cbv zeta in *. rewrite He, Hc, Ht, Hu, He0. simpl.
    rewrite T, U. simpl. repeat split; lia.
  - unfold Chat.on_message. destruct (subtype =? "success"); simpl;
      repeat split; lia.
Qed.

Lemma counters_fold (messages : list Chat.SDKMessage) :
  forall st : Chat.Stream,
    let st' := fold_left (fun st m => Chat.on_message m st) messages st in
    Chat.enqueued st'
    = (Chat.enqueued st ++ flat_map Chat.chunks_of messages)%list
    /\ Chat.closed st' = Chat.closed st
    /\ Chat.textChunkCount st'
       = (Chat.textChunkCount st
          + List.length (filter Chat.is_text_chunk
                           (flat_map Chat.chunks_of messages)))%nat
    /\ Chat.toolUseCount st'
       = (Chat.toolUseCount st
          + List.length (filter Chat.is_tool_start_chunk
                           (flat_map Chat.chunks_of messages)))%nat.
Proof.
  induction messages as [|m messages IH]; intros st; simpl.
  - rewrite app_nil_r. repeat split; lia.
  - destruct (IH (Chat.on_message m st)) as (He & Hc & Ht & Hu).
    destruct (counters_on_message m st) as (He1 & Hc1 & Ht1 & Hu1).
    cbv zeta in *. rewrite He, Hc, Ht, Hu, He1, Hc1, Ht1, Hu1.
    rewrite !filter_app, !length_app, <- app_assoc.
    repeat split; lia.
Qed.

Lemma chunks_of_no_DONE (m : Chat.SDKMessage) :
  filter Chat.is_DONE (Chat.chunks_of m) = [].
Proof.
  unfold Chat.chunks_of.
  destruct m as [[[[text|]|]|]|[content|]|name elapsed|subtype|];
    try reflexivity.
  - unfold Chat.on_message.
    destruct (on_blocks_enqueued content Chat.empty_stream) as (He & _).
    cbv zeta in *. rewrite He. simpl. clear He.
    induction content as [|[n|] content IH]; simpl; auto.
  - unfold Chat.on_message. now destruct (subtype =? "success").
Qed.

Lemma flat_chunks_no_DONE (messages : list Chat.SDKMessage) :
  filter Chat.is_DONE (flat_map Chat.chunks_of messages) = [].
Proof.
  induction messages as [|m messages IH]; simpl; [reflexivity|].
  now rewrite filter_app, chunks_of_no_DONE, IH.
Qed.

(** X20. When the stream ends, the two counters reported to telemetry
    agree with what was sent: [textChunkCount] is the number of
    [text_delta] events enqueued and [toolUseCount] the number of
    [tool_start] events enqueued, whether the query ended or threw. *)
Theorem chat_stream_counters :
  forall (messages : list Chat.SDKMessage) (failed : bool),
    Chat.textChunkCount (Chat.start messages failed)
    = List.length (filter Chat.is_text_chunk
                     (Chat.enqueued (Chat.start messages failed)))
    /\ Chat.toolUseCount (Chat.start messages failed)
       = List.length (filter Chat.is_tool_start_chunk
                        (Chat.enqueued (Chat.start messages failed))).
Proof.
  intros messages failed. unfold Chat.start.
  destruct (counters_fold messages Chat.empty_stream) as (He & _ & Ht & Hu).
  cbv zeta in *.
  destruct failed; simpl; rewrite He, Ht, Hu; simpl;
    rewrite !filter_app, !length_app; simpl; split; lia.
Qed.

(** X21. The stream is the concatenation, in order, of the chunks of each
    message the query yielded (a message's chunks do not depend on what came
    before), followed by exactly one closing chunk: [data: [DONE]] when the
    query ended, the "Stream error occurred" event when it threw.  The
    stream is then closed, and [data: [DONE]] occurs nowhere else, so it is
    never sent after a failure. *)
Theorem chat_stream_framing :
  forall (messages : list Chat.SDKMessage) (failed : bool),
    Chat.closed (Chat.start messages failed) = true
    /\ Chat.enqueued (Chat.start messages failed)
       = (flat_map Chat.chunks_of messages
          ++ [if failed
              then Chat.data (Chat.send_error "Stream error occurred")
              else Chat.data_DONE])%list
    /\ List.length (filter Chat.is_DONE
                      (Chat.enqueued (Chat.start messages failed)))
       = (if failed then 0 else 1)%nat.
Proof.
  intros messages failed. unfold Chat.start.
  destruct (counters_fold messages Chat.empty_stream) as (He & _).
  cbv zeta in *.
  destruct failed; simpl; rewrite He; simpl;
    rewrite filter_app, flat_chunks_no_DONE; repeat split.
Qed.

(** * restoreWindow and focusWindow on an existing id *)

(** X22. When a window is found by the id, restoreWindow and focusWindow
    both make it focused with [zIndex] the incremented counter and keep its
    id, title, position, size and [isMaximized]; restoreWindow also clears
    [isMinimized], while focusWindow keeps [isMinimized] as it was.  Every
    window with another id keeps its place and all its fields except
    [isFocused], which becomes [false]. *)
Theorem raise_existing_id :
  forall (s : State) (wid : string) (e : WindowState),
    find_window wid (windows s) = Some e ->
    find_window wid (windows (restoreWindow wid s))
    = Some (mkWindowState (id e) (title e) (x e) (y e) (width e) (height e)
              (topZIndex s + 1) true false (isMaximized e))
    /\ find_window wid (windows (focusWindow wid s))
       = Some (mkWindowState (id e) (title e) (x e) (y e) (width e) (height e)
                 (topZIndex s + 1) true (isMinimized e) (isMaximized e))
    /\ (forall i w, nth_error (windows s) i = Some w -> id w <> wid ->
                    nth_error (windows (restoreWindow wid s)) i
                    = Some (mkWindowState (id w) (title w) (x w) (y w)
                              (width w) (height w) (zIndex w)
                              false (isMinimized w) (isMaximized w))
                    /\ nth_error (windows (focusWindow wid s)) i
                       = nth_error (windows (restoreWindow wid s)) i).
Proof.
  intros s wid e F. unfold restoreWindow, focusWindow; simpl.
  rewrite !find_window_sweep by reflexivity. rewrite F. simpl.
  split; [reflexivity|]. split; [reflexivity|].
  intros i w Hn Hid. apply String.eqb_neq in Hid.
  rewrite !nth_error_map, Hn. simpl. rewrite Hid. split; reflexivity.
Qed.

Lemma raise_existing_id_witness :
  find_window "a"
    (windows (focusWindow "a"
                (run [Open notes_a; Open notes_b; Minimize "a"] initial)))
  = Some (mkWindowState "a" "Notes" 0 0 400 300 103 true true false).
Proof.
  destruct (raise_existing_id
              (run [Open notes_a; Open notes_b; Minimize "a"] initial) "a"
              (mkWindowState "a" "Notes" 0 0 400 300 101 false true false)
              eq_refl)
    as (_ & H & _).
  exact H.
Defined.
